(** * minecraft-log-reader: a shallow embedding of [main.py]

    The script lists a directory of gzip-compressed server logs, keeps the
    file names of the shape [YYYY-MM-DD-N.log.gz], sorts them, cuts every
    decoded log into entries with a regular expression, classifies every
    entry with an ordered chain of regular expressions and rewrites four
    CSV files after every log file.

    Python values are embedded as follows.
    - [str] is [string]; the alphabet of the model is ASCII, so that [\d]
      is [0-9] and [\w] is [[A-Za-z0-9_]]. The patterns of the script are
      [str] patterns, whose classes are larger outside ASCII; a statement
      that reads a class off a text takes the text to be ASCII
      ([ascii_text]) or spells out the characters it allows.
    - A compiled pattern is a term of [Re.regex]; [Re.run] is a
      backtracking matcher with the priorities of Python's [re] (greedy
      repetition, leftmost alternative first).
    - An exception is a value of [exn]; code that may raise returns a
      [result].
    - The files written by the script live in a finite map from paths to
      nodes; [main] threads that map through its steps. *)

From Stdlib Require Import Ascii String List Arith ZArith Lia Bool.
From stdpp Require Import base option list gmap strings sorting.

(** [simpl] and [cbn] may unfold a concatenation on a literal. *)
#[global] Arguments String.append !s1 s2 : simpl nomatch.

(** ** Exceptions *)

Inductive exn : Type :=
| ValueError
| TypeError
| AttributeError
| FileNotFoundError
| NotADirectoryError
| OSError.

Inductive result (A : Type) : Type :=
| Ok (a : A)
| Raise (e : exn).
Arguments Ok {A} a.
Arguments Raise {A} e.

Definition rbind {A B} (r : result A) (f : A -> result B) : result B :=
  match r with
  | Ok a => f a
  | Raise e => Raise e
  end.

(** ** Strings *)

Definition newline : ascii := "010"%char.
Definition carriage_return : ascii := "013"%char.
Definition dquote : ascii := "034"%char.

Fixpoint str_take (n : nat) (s : string) : string :=
  match n, s with
  | S n', String c s' => String c (str_take n' s')
  | _, _ => ""
  end.

Definition char_in (c : ascii) (cs : list ascii) : bool :=
  existsb (Ascii.eqb c) cs.

(** ** Regular expressions ([import re]) *)

Module Re.

(** Character sets of the patterns of the script: [\d], [\w], [.] (any
    character but a newline) and a negated bracket set [[^...]]. *)
Inductive charset : Type :=
| Digit
| Word
| Dot
| NoneOf (cs : list ascii).

Definition between (lo hi c : ascii) : bool :=
  N.leb (N_of_ascii lo) (N_of_ascii c) && N.leb (N_of_ascii c) (N_of_ascii hi).

(** [\d] and [\w] on ASCII characters. On a [str] the two classes of
    Python also hold the decimal digits and the letters outside ASCII,
    which the alphabet of the model does not have. *)
Definition is_digit (c : ascii) : bool := between "0" "9" c.

Definition is_word (c : ascii) : bool :=
  between "a" "z" c || between "A" "Z" c || is_digit c || Ascii.eqb c "_".

Definition mem (cs : charset) (c : ascii) : bool :=
  match cs with
  | Digit => is_digit c
  | Word => is_word c
  | Dot => negb (Ascii.eqb c newline)
  | NoneOf l => negb (char_in c l)
  end.

(** [Rep cs lo hi] is the greedy [cs{lo,hi}]; [hi = None] is no upper
    bound, so [cs*] is [Rep cs 0 None] and [cs+] is [Rep cs 1 None].
    [Grp name r] is a capturing group; an unnamed group is named by its
    number. *)
Inductive regex : Type :=
| Lit (s : string)
| Set_ (cs : charset)
| Rep (cs : charset) (lo : nat) (hi : option nat)
| Seq (r1 r2 : regex)
| Alt (r1 r2 : regex)
| Grp (name : string) (r : regex).

(** The groups of a match, innermost and latest first. *)
Definition groups : Type := list (string * string).

Fixpoint strip (p s : string) : option string :=
  match p with
  | "" => Some s
  | String a p' =>
      match s with
      | String b s' => if Ascii.eqb a b then strip p' s' else None
      | "" => None
      end
  end.

Definition may_repeat (hi : option nat) : bool :=
  match hi with
  | Some O => false
  | _ => true
  end.

(** Greedy repetition of one character set: take a character when
    there is one in the set and the upper bound allows it; when the
    rest of the pattern fails after that, give the character back. *)
Fixpoint rep {A} (cs : charset) (lo : nat) (hi : option nat)
    (s : string) (k : string -> option A) : option A :=
  let stop := match lo with O => k s | S _ => None end in
  match s with
  | String c s' =>
      if mem cs c && may_repeat hi then
        match rep cs (Nat.pred lo) (Nat.pred <$> hi) s' k with
        | Some a => Some a
        | None => stop
        end
      else stop
  | "" => stop
  end.

(** [run r s gs k] matches [r] at the start of [s] and hands the rest
    of the string and the groups to the continuation [k]; a [None] of
    the continuation makes the matcher backtrack. *)
Fixpoint run {A} (r : regex) (s : string) (gs : groups)
    (k : string -> groups -> option A) : option A :=
  match r with
  | Lit p =>
      match strip p s with
      | Some s' => k s' gs
      | None => None
      end
  | Set_ cs =>
      match s with
      | String c s' => if mem cs c then k s' gs else None
      | "" => None
      end
  | Rep cs lo hi => rep cs lo hi s (fun s' => k s' gs)
  | Seq r1 r2 => run r1 s gs (fun s' gs' => run r2 s' gs' k)
  | Alt r1 r2 =>
      match run r1 s gs k with
      | Some a => Some a
      | None => run r2 s gs k
      end
  | Grp name r1 =>
      run r1 s gs (fun s' gs' =>
        k s' ((name, str_take (String.length s - String.length s') s) :: gs'))
  end.

(** [pattern.match(s)]: the groups of the match at the start of [s],
    and what is left of [s] after it. *)
Definition match_ (r : regex) (s : string) : option (groups * string) :=
  run r s [] (fun s' gs => Some (gs, s')).

(** [pattern.fullmatch(s)]: the match has to reach the end of [s]. *)
Definition fullmatch (r : regex) (s : string) : option groups :=
  run r s [] (fun s' gs => match s' with "" => Some gs | _ => None end).

(** [m.group(name)]. *)
Fixpoint lookup_group (name : string) (gs : groups) : option string :=
  match gs with
  | [] => None
  | (n, v) :: gs' => if String.eqb n name then Some v else lookup_group name gs'
  end.

Definition group (gs : groups) (name : string) : string :=
  default "" (lookup_group name gs).

(** [pattern.findall(s)] for a pattern with one group whose matches
    are never empty: scan from the left; at a match keep group 1 and go
    on after the match, otherwise move one character to the right.
    Every step moves forward in [s], so [S (length s)] steps cover it. *)
Fixpoint findall_steps (n : nat) (r : regex) (s : string) : list string :=
  match n with
  | 0 => []
  | S n' =>
      match match_ r s with
      | Some (gs, s') =>
          if Nat.ltb (String.length s') (String.length s)
          then group gs "1" :: findall_steps n' r s'
          else match s with
               | String _ t => findall_steps n' r t
               | "" => []
               end
      | None =>
          match s with
          | String _ t => findall_steps n' r t
          | "" => []
          end
      end
  end.

Definition findall (r : regex) (s : string) : list string :=
  findall_steps (S (String.length s)) r s.

End Re.

Import Re.

(** A pattern is written as the list of its parts, in the order of the
    pattern text. *)
Fixpoint cat (rs : list regex) : regex :=
  match rs with
  | [] => Lit ""
  | [r] => r
  | r :: rs' => Seq r (cat rs')
  end.

Definition exactly (cs : charset) (n : nat) : regex := Rep cs n (Some n).

(** ** Dates and times ([from datetime import datetime, date, time]) *)

Section Datetime.
Local Open Scope Z_scope.

Record date : Type := Date { year : Z; month : Z; day : Z }.
Record time : Type := Time { hour : Z; minute : Z; second : Z }.
Record datetime : Type := Datetime { dt_date : date; dt_time : time }.

Definition digit_value (c : ascii) : Z := Z.of_N (N_of_ascii c) - 48.

Fixpoint number_from (acc : Z) (s : string) : option Z :=
  match s with
  | "" => Some acc
  | String c s' =>
      if is_digit c then number_from (10 * acc + digit_value c) s' else None
  end.

(** [int(s)] for a non-empty string of ASCII digits. *)
Definition number (s : string) : option Z :=
  match s with
  | "" => None
  | _ => number_from 0 s
  end.

Definition is_leap (y : Z) : bool :=
  (y mod 4 =? 0) && (negb (y mod 100 =? 0) || (y mod 400 =? 0)).

Definition days_in_month (y m : Z) : Z :=
  if m =? 2 then (if is_leap y then 29 else 28)
  else if (m =? 4) || (m =? 6) || (m =? 9) || (m =? 11) then 30
  else 31.

(** The constructor [date(year, month, day)] with its range checks
    ([MINYEAR = 1], [MAXYEAR = 9999]). *)
Definition make_date (y m d : Z) : result date :=
  if (1 <=? y) && (y <=? 9999) && (1 <=? m) && (m <=? 12)
     && (1 <=? d) && (d <=? days_in_month y m)
  then Ok (Date y m d)
  else Raise ValueError.

(** The constructor [time(hour, minute, second)] with its range checks. *)
Definition make_time (h m s : Z) : result time :=
  if (0 <=? h) && (h <? 24) && (0 <=? m) && (m <? 60) && (0 <=? s) && (s <? 60)
  then Ok (Time h m s)
  else Raise ValueError.

Definition colon : ascii := ":"%char.
Definition hyphen : ascii := "-"%char.

(** [date.fromisoformat] on the shape the file-name pattern captures,
    [YYYY-MM-DD]; the script passes it nothing else, and the model raises
    [ValueError] on every other string. *)
Definition date_fromisoformat (s : string) : result date :=
  match s with
  | String y1 (String y2 (String y3 (String y4 (String h1
    (String m1 (String m2 (String h2 (String d1 (String d2 ""))))))))) =>
      if Ascii.eqb h1 hyphen && Ascii.eqb h2 hyphen then
        match number (String y1 (String y2 (String y3 (String y4 "")))),
              number (String m1 (String m2 "")),
              number (String d1 (String d2 "")) with
        | Some y, Some m, Some d => make_date y m d
        | _, _, _ => Raise ValueError
        end
      else Raise ValueError
  | _ => Raise ValueError
  end.

(** [time.fromisoformat] on the shape the entry patterns capture,
    [HH:MM:SS]; the script passes it nothing else, and the model raises
    [ValueError] on every other string. *)
Definition time_fromisoformat (s : string) : result time :=
  match s with
  | String h1 (String h2 (String c1 (String m1 (String m2
    (String c2 (String s1 (String s2 ""))))))) =>
      if Ascii.eqb c1 colon && Ascii.eqb c2 colon then
        match number (String h1 (String h2 "")),
              number (String m1 (String m2 "")),
              number (String s1 (String s2 "")) with
        | Some h, Some m, Some sec => make_time h m sec
        | _, _, _ => Raise ValueError
        end
      else Raise ValueError
  | _ => Raise ValueError
  end.

(** [datetime.combine(d, t)]. *)
Definition combine (d : date) (t : time) : datetime := Datetime d t.


End Datetime.

(** ** The patterns of [main.py] *)

Definition LOG_FILENAME_FORMAT : regex :=
  cat [ Grp "date" (cat [ exactly Digit 4; Lit "-"; exactly Digit 2; Lit "-";
                          exactly Digit 2 ]);
        Lit "-"; Rep Digit 1 None; Lit ".log.gz" ].

(** [\[\d{2}:\d{2}:\d{2}\]] without the brackets. *)
Definition CLOCK : regex :=
  cat [ exactly Digit 2; Lit ":"; exactly Digit 2; Lit ":"; exactly Digit 2 ].

Definition LOG_ENTRY_FORMAT : regex :=
  cat [ Lit (String newline "");
        Grp "1" (cat [ Lit "["; CLOCK; Lit "] "; Rep Dot 0 None ]) ].

(** The part the five entry patterns have in common. The dots of the
    class name are not escaped in the script, so each of them stands for
    any character but a newline. *)
Definition ENTRY_HEAD : regex :=
  cat [ Lit "["; Grp "time" CLOCK; Lit "] [Server thread/INFO] [net";
        Set_ Dot; Lit "minecraft"; Set_ Dot; Lit "server"; Set_ Dot;
        Lit "dedicated"; Set_ Dot; Lit "DedicatedServer]: " ].

Definition PLAYER : regex := Grp "player" (Rep Word 1 (Some 16)).

Definition JOIN_FORMAT : regex :=
  cat [ ENTRY_HEAD; PLAYER; Lit " joined the game" ].

Definition LEAVE_FORMAT : regex :=
  cat [ ENTRY_HEAD; PLAYER; Lit " left the game" ].

Definition ADVANCEMENT_FORMAT : regex :=
  cat [ ENTRY_HEAD; PLAYER; Lit " has ";
        Grp "type" (Alt (Lit "made the advancement")
                      (Alt (Lit "completed the challenge")
                           (Lit "reached the goal")));
        Lit " ["; Grp "advancement" (Rep (NoneOf ["]"%char]) 1 None); Lit "]" ].

Definition DEATH_FORMAT : regex :=
  cat [ ENTRY_HEAD; PLAYER; Lit " "; Grp "cause" (Rep Dot 0 None) ].

Definition MESSAGE_FORMAT : regex :=
  cat [ ENTRY_HEAD; Lit "<"; PLAYER; Lit "> "; Grp "message" (Rep Dot 0 None) ].

Definition NOT_PLAYERS : list string :=
  [ "Starting"; "Loading"; "Default"; "Generating"; "Preparing"; "Done";
    "Successfully"; "Saved"; "Stopping"; "There"; "Added"; "You"; "Unknown";
    "Config"; "Use" ].

(** ** Events *)

Inductive event : Type :=
| PlayerJoinLeave (time : datetime) (player : string) (type : string)
| PlayerAdvancement (time : datetime) (player : string) (advancement : string)
| PlayerDeath (time : datetime) (player : string) (cause : string)
| PlayerMessage (time : datetime) (player : string) (message : string).

(** The time stamp of an event: the date of the log file and the time
    of the entry. [time.fromisoformat] may raise. *)
Definition stamp (log_date : date) (gs : groups) : result datetime :=
  rbind (time_fromisoformat (group gs "time")) (fun t => Ok (combine log_date t)).

(** The body of the loop over the entries of a log: [Ok (Some e)] when
    the entry appends [e] to the event stream, [Ok None] when it appends
    nothing, [Raise] when the body raises. *)
Definition classify (entry : string) (log_date : date) : result (option event) :=
  match match_ JOIN_FORMAT entry with
  | Some (join_entry, _) =>
      rbind (stamp log_date join_entry) (fun t =>
      Ok (Some (PlayerJoinLeave t (group join_entry "player") "join")))
  | None =>
  match match_ LEAVE_FORMAT entry with
  | Some (leave_entry, _) =>
      rbind (stamp log_date leave_entry) (fun t =>
      Ok (Some (PlayerJoinLeave t (group leave_entry "player") "leave")))
  | None =>
  match match_ ADVANCEMENT_FORMAT entry with
  | Some (adv_entry, _) =>
      rbind (stamp log_date adv_entry) (fun t =>
      Ok (Some (PlayerAdvancement t (group adv_entry "player")
                  (group adv_entry "advancement"))))
  | None =>
  match match_ DEATH_FORMAT entry with
  | Some (death_entry, _) =>
      let player := group death_entry "player" in
      if bool_decide (player ∈ NOT_PLAYERS) then Ok None
      else
        rbind (stamp log_date death_entry) (fun t =>
        Ok (Some (PlayerDeath t player (group death_entry "cause"))))
  | None =>
  match match_ MESSAGE_FORMAT entry with
  | Some (message_entry, _) =>
      rbind (stamp log_date message_entry) (fun t =>
      Ok (Some (PlayerMessage t (group message_entry "player")
                  (group message_entry "message"))))
  | None => Ok None
  end end end end end.

(** The loop over the entries of one log: the events it appends, in
    order, or the exception that ends it. *)
Fixpoint collect (entries : list string) (log_date : date) : result (list event) :=
  match entries with
  | [] => Ok []
  | entry :: rest =>
      rbind (classify entry log_date) (fun o =>
      rbind (collect rest log_date) (fun es =>
      Ok (match o with Some e => e :: es | None => es end)))
  end.

Definition log_events (log : string) (log_date : date) : result (list event) :=
  collect (findall LOG_ENTRY_FORMAT log) log_date.

(** ** The log directory and the environment

    What the run reads and never writes: the environment variables, and
    what the paths name. A path names a directory, with its entries in
    the order [os.listdir] reports them, or a regular file, or nothing;
    an entry of a directory is a file name with the outcome of
    [gzip.open(path).read().decode('utf-8')] on that file. The key ["."]
    is the current directory. *)

Inductive on_disk : Type :=
| Directory (entries : list (string * result string))
| RegularFile.

Record world : Type := World {
  environ : gmap string string;
  disk : gmap string on_disk
}.

(** [LOG_DIRECTORY = os.environ.get('LOG_DIRECTORY')]. *)
Definition LOG_DIRECTORY (w : world) : option string :=
  environ w !! "LOG_DIRECTORY".

(** [os.listdir(path)]; [os.listdir(None)] lists the current directory.
    A path that names a regular file raises [NotADirectoryError], a path
    that names nothing [FileNotFoundError]. *)
Definition os_listdir (w : world) (path : option string) : result (list string) :=
  match disk w !! default "." path with
  | Some (Directory entries) => Ok (entries.*1)
  | Some RegularFile => Raise NotADirectoryError
  | None => Raise FileNotFoundError
  end.

Fixpoint entry_named (filename : string) (entries : list (string * result string))
    : option (result string) :=
  match entries with
  | [] => None
  | (n, r) :: rest => if String.eqb n filename then Some r else entry_named filename rest
  end.

(** [gzip.open(os.path.join(dir, filename))], read and decoded.
    [os.path.join(None, filename)] raises [TypeError]. *)
Definition read_log (w : world) (dir : option string) (filename : string)
    : result string :=
  match dir with
  | None => Raise TypeError
  | Some d =>
      match disk w !! d with
      | Some (Directory entries) =>
          default (Raise FileNotFoundError) (entry_named filename entries)
      | Some RegularFile => Raise NotADirectoryError
      | None => Raise FileNotFoundError
      end
  end.

(** ** The CSV files ([import csv]) *)

Inductive event_type : Type :=
| TPlayerJoinLeave
| TPlayerAdvancement
| TPlayerDeath
| TPlayerMessage.

Global Instance event_type_eq_dec : EqDecision event_type.
Proof. solve_decision. Defined.

(** [type(r)]. *)
Definition type_of (r : event) : event_type :=
  match r with
  | PlayerJoinLeave _ _ _ => TPlayerJoinLeave
  | PlayerAdvancement _ _ _ => TPlayerAdvancement
  | PlayerDeath _ _ _ => TPlayerDeath
  | PlayerMessage _ _ _ => TPlayerMessage
  end.

(** [entry_type._fields]. *)
Definition fields_of (t : event_type) : list string :=
  match t with
  | TPlayerJoinLeave => ["time"; "player"; "type"]
  | TPlayerAdvancement => ["time"; "player"; "advancement"]
  | TPlayerDeath => ["time"; "player"; "cause"]
  | TPlayerMessage => ["time"; "player"; "message"]
  end.

Definition CSV_FILES : list (string * event_type) :=
  [ ("joins_leaves.csv", TPlayerJoinLeave);
    ("advancements.csv", TPlayerAdvancement);
    ("deaths.csv", TPlayerDeath);
    ("messages.csv", TPlayerMessage) ].

Definition digit_char (d : Z) : ascii := ascii_of_nat (48 + Z.to_nat d).

Definition two_digits (n : Z) : string :=
  String (digit_char ((n / 10) mod 10)%Z) (String (digit_char (n mod 10)%Z) "").

Definition four_digits (n : Z) : string :=
  two_digits (n / 100)%Z +:+ two_digits (n mod 100)%Z.

(** [str(dt)] for a [datetime] without microseconds and time zone. *)
Definition str_datetime (dt : datetime) : string :=
  four_digits (year (dt_date dt)) +:+ "-" +:+ two_digits (month (dt_date dt))
  +:+ "-" +:+ two_digits (day (dt_date dt)) +:+ " "
  +:+ two_digits (hour (dt_time dt)) +:+ ":" +:+ two_digits (minute (dt_time dt))
  +:+ ":" +:+ two_digits (second (dt_time dt)).

(** The values of a row, as the writer turns them into text. *)
Definition row_of (r : event) : list string :=
  match r with
  | PlayerJoinLeave t p ty => [str_datetime t; p; ty]
  | PlayerAdvancement t p a => [str_datetime t; p; a]
  | PlayerDeath t p c => [str_datetime t; p; c]
  | PlayerMessage t p m => [str_datetime t; p; m]
  end.

Fixpoint str_exists (f : ascii -> bool) (s : string) : bool :=
  match s with
  | "" => false
  | String c s' => f c || str_exists f s'
  end.

Fixpoint double_quotes (s : string) : string :=
  match s with
  | "" => ""
  | String c s' =>
      if Ascii.eqb c dquote then String dquote (String dquote (double_quotes s'))
      else String c (double_quotes s')
  end.

(** The default dialect of [csv.writer]: a field with a comma, a quote,
    a carriage return or a line feed is quoted, and its quotes doubled. *)
Definition csv_field (s : string) : string :=
  if str_exists (fun c => char_in c [","%char; dquote; carriage_return; newline]) s
  then String dquote (double_quotes s) +:+ String dquote ""
  else s.

Fixpoint join_with (sep : string) (l : list string) : string :=
  match l with
  | [] => ""
  | [x] => x
  | x :: rest => x +:+ sep +:+ join_with sep rest
  end.

(** [writer.writerow(fields)]; the line ends with [\r\n], which the
    text layer of a POSIX system writes as it is. *)
Definition writerow (fields : list string) : string :=
  join_with "," (csv_field <$> fields) +:+ String carriage_return (String newline "").

Fixpoint concat_str (l : list string) : string :=
  match l with
  | [] => ""
  | x :: rest => x +:+ concat_str rest
  end.

(** What one [with open(...)] block writes: the header, then the rows
    of the events of the type of the file, in the order of the stream. *)
Definition csv_text (entry_type : event_type) (event_stream : list event) : string :=
  writerow (fields_of entry_type)
  +:+ concat_str (writerow <$> (row_of <$>
        filter (fun r => type_of r = entry_type) event_stream)).

(** ** The files the run writes *)

Inductive node : Type :=
| Dir
| File (content : string).

(** [os.path.join('output', filename)]. *)
Definition output_path (filename : string) : string := "output/" +:+ filename.

(** [with open(path, 'w') as f: f.write(text)] for a path in [output]:
    the file is created or truncated, then written. It raises when
    [output] is not a directory or the path is one; [OSError] stands for
    its subclasses [NotADirectoryError] and [IsADirectoryError]. The map
    of the files has no permissions and no read-only file system: what
    else makes [open] or [os.mkdir] raise is outside the model, so that
    the model tells when the export has to raise, not when it cannot. *)
Definition write_file (path text : string) (fs : gmap string node)
    : result unit * gmap string node :=
  match fs !! "output", fs !! path with
  | Some Dir, Some Dir => (Raise OSError, fs)
  | Some Dir, _ => (Ok tt, <[path := File text]> fs)
  | _, _ => (Raise OSError, fs)
  end.

(** [if not os.path.exists('output'): os.mkdir('output')]. *)
Definition ensure_output (fs : gmap string node) : gmap string node :=
  match fs !! "output" with
  | Some _ => fs
  | None => <["output" := Dir]> fs
  end.

(** The loop over [CSV_FILES]. *)
Fixpoint write_csvs (files : list (string * event_type)) (event_stream : list event)
    (fs : gmap string node) : result unit * gmap string node :=
  match files with
  | [] => (Ok tt, fs)
  | (filename, entry_type) :: rest =>
      match write_file (output_path filename) (csv_text entry_type event_stream) fs with
      | (Ok _, fs') => write_csvs rest event_stream fs'
      | (Raise e, fs') => (Raise e, fs')
      end
  end.

(** The export at the end of the body of the loop over the log files. *)
Definition export (event_stream : list event) (fs : gmap string node)
    : result unit * gmap string node :=
  write_csvs CSV_FILES event_stream (ensure_output fs).

(** ** [main] *)

(** The part of the body of the loop over the log files that reads:
    the event stream after the entries of [filename]. *)
Definition read_events (w : world) (filename : string) : result (list event) :=
  match fullmatch LOG_FILENAME_FORMAT filename with
  | None => Raise AttributeError
  | Some m =>
      rbind (date_fromisoformat (group m "date")) (fun log_date =>
      rbind (read_log w (LOG_DIRECTORY w) filename) (fun log =>
      log_events log log_date))
  end.

(** The loop over the log files, from the event stream and the files
    written so far. *)
Fixpoint process (w : world) (log_files : list string) (event_stream : list event)
    (fs : gmap string node) : result (list event) * gmap string node :=
  match log_files with
  | [] => (Ok event_stream, fs)
  | filename :: rest =>
      match read_events w filename with
      | Raise e => (Raise e, fs)
      | Ok new_events =>
          let event_stream' := (event_stream ++ new_events)%list in
          match export event_stream' fs with
          | (Ok _, fs') => process w rest event_stream' fs'
          | (Raise e, fs') => (Raise e, fs')
          end
      end
  end.

(** [sorted(filter(lambda x: LOG_FILENAME_FORMAT.fullmatch(x), log_files))];
    [str] is ordered by code points, as [String.le] orders [string]. *)
Definition sorted_log_files (names : list string) : list string :=
  merge_sort String.le
    (filter (fun x => is_Some (fullmatch LOG_FILENAME_FORMAT x)) names).

(** A run of [main]: the event stream when it ends without an
    exception, and the files written when it ends. *)
Definition main (w : world) (fs : gmap string node)
    : result (list event) * gmap string node :=
  match os_listdir w (LOG_DIRECTORY w) with
  | Raise e => (Raise e, fs)
  | Ok log_files => process w (sorted_log_files log_files) [] fs
  end.

(** ** Physical lines

    The vocabulary in which the entries of a log are described: the
    physical lines of a text, and the lines that start with a time stamp
    in brackets and a space. *)

(** The text up to the first newline. *)
Fixpoint first_line (s : string) : string :=
  match s with
  | "" => ""
  | String c s' => if Ascii.eqb c newline then "" else String c (first_line s')
  end.

(** The text from the first newline on (empty when there is none). *)
Fixpoint after_line (s : string) : string :=
  match s with
  | "" => ""
  | String c s' => if Ascii.eqb c newline then s else after_line s'
  end.

(** [s.split('\n')]. *)
Fixpoint lines (s : string) : list string :=
  match s with
  | "" => [""]
  | String c s' =>
      if Ascii.eqb c newline then "" :: lines s'
      else match lines s' with
           | l :: ls => String c l :: ls
           | [] => [String c ""]
           end
  end.

(** The line starts with [[HH:MM:SS]] and a space. *)
Definition has_marker (l : string) : bool :=
  match l with
  | String b (String h1 (String h2 (String c1 (String m1 (String m2
    (String c2 (String s1 (String s2 (String e (String sp _)))))))))) =>
      Ascii.eqb "[" b && is_digit h1 && is_digit h2 && Ascii.eqb ":" c1
      && is_digit m1 && is_digit m2 && Ascii.eqb ":" c2
      && is_digit s1 && is_digit s2 && Ascii.eqb "]" e && Ascii.eqb " " sp
  | _ => false
  end.

(** The splitting the specification describes, for comparison with
    [findall LOG_ENTRY_FORMAT]: a line that follows a newline and has the
    marker starts an entry, and every line without the marker after it is
    a continuation line of that entry. [gather ls] is the continuation
    lines in front of the first entry of [ls], and the entries of [ls]. *)
Fixpoint gather (ls : list string) : list string * list string :=
  match ls with
  | [] => ([], [])
  | l :: rest =>
      let '(continuation, entries) := gather rest in
      if has_marker l
      then ([], join_with (String newline "") (l :: continuation) :: entries)
      else (l :: continuation, entries)
  end.

Definition spec_entries (log : string) : list string :=
  (gather (tail (lines log))).2.

(** The names of the groups of a pattern. *)
Fixpoint names (r : regex) : list string :=
  match r with
  | Lit _ | Set_ _ | Rep _ _ _ => []
  | Seq r1 r2 | Alt r1 r2 => names r1 ++ names r2
  | Grp name r1 => name :: names r1
  end.

(** A pattern without choice: no alternative, and every repetition has
    a fixed count. *)
Fixpoint linear (r : regex) : bool :=
  match r with
  | Lit _ | Set_ _ => true
  | Rep _ lo hi => bool_decide (hi = Some lo)
  | Seq r1 r2 => linear r1 && linear r2
  | Alt _ _ => false
  | Grp _ r1 => linear r1
  end.

(** ** Vocabulary of the statements *)

Definition ENTRY_FORMATS : list regex :=
  [JOIN_FORMAT; LEAVE_FORMAT; ADVANCEMENT_FORMAT; DEATH_FORMAT; MESSAGE_FORMAT].

Definition dropped_by_denylist (entry : string) : bool :=
  match match_ JOIN_FORMAT entry, match_ LEAVE_FORMAT entry,
        match_ ADVANCEMENT_FORMAT entry, match_ DEATH_FORMAT entry with
  | None, None, None, Some (death_entry, _) =>
      bool_decide (group death_entry "player" ∈ NOT_PLAYERS)
  | _, _, _, _ => false
  end.

Fixpoint str_forall (f : ascii -> bool) (s : string) : bool :=
  match s with
  | "" => true
  | String c s' => f c && str_forall f s'
  end.

(** A character of ASCII, and a text of such characters. On them the
    classes of the model are those of Python. *)
Definition is_ascii (c : ascii) : bool := N.ltb (N_of_ascii c) 128.

Definition ascii_text (s : string) : Prop := str_forall is_ascii s = true.

(** The rest of the string does not go on with a character of the set. *)
Definition stops (cs : charset) (rest : string) : bool :=
  match rest with
  | "" => true
  | String c _ => negb (mem cs c)
  end.

Definition SERVER_TAG : string :=
  "] [Server thread/INFO] [net.minecraft.server.dedicated.DedicatedServer]: ".

(** The marker of a line, with its six digits. *)
Definition marker (h1 h2 m1 m2 s1 s2 : ascii) : string :=
  "[" +:+ String h1 (String h2 (String ":" (String m1 (String m2
        (String ":" (String s1 (String s2 "] "))))))).

Definition paths (files : list (string * event_type)) : list string :=
  (fun f => output_path f.1) <$> files.

(** The text of a date in a file name. *)
Definition iso_date (y1 y2 y3 y4 m1 m2 d1 d2 : ascii) : string :=
  String y1 (String y2 (String y3 (String y4 (String "-"
    (String m1 (String m2 (String "-" (String d1 (String d2 ""))))))))).

(** The date of a log file, when its name has one. *)
Definition source_date (filename : string) : option date :=
  match fullmatch LOG_FILENAME_FORMAT filename with
  | Some m =>
      match date_fromisoformat (group m "date") with
      | Ok d => Some d
      | Raise _ => None
      end
  | None => None
  end.

Definition all_digits (cs : list ascii) : Prop := Forall (fun c => is_digit c = true) cs.

(** ** Concrete entries, logs and directories *)

Definition trace_log : string :=
  String newline ("[12:00:00] boom" +:+
  String newline ("  at foo" +:+
  String newline "[12:00:01] next")).

Definition first_line_log : string :=
  "[14:22:01] [Server thread/INFO] [net.minecraft.server.dedicated.DedicatedServer]: Steve joined the game".

Definition bad_clock_entry : string :=
  "[25:00:00] [Server thread/INFO] [net.minecraft.server.dedicated.DedicatedServer]: Steve joined the game".

Definition good_entry : string :=
  "[14:22:01] [Server thread/INFO] [net.minecraft.server.dedicated.DedicatedServer]: Alex joined the game".

Definition bad_clock_world : world :=
  World {[ "LOG_DIRECTORY" := "logs" ]}
        {[ "logs" := Directory
                       [ ("2024-03-05-1.log.gz",
                          Ok (String newline bad_clock_entry
                              +:+ String newline good_entry)) ] ]}.

Definition you_joined : string :=
  "[14:22:01] [Server thread/INFO] [net.minecraft.server.dedicated.DedicatedServer]: You joined the game".

Definition loading_entry : string :=
  "[14:22:01] [Server thread/INFO] [net.minecraft.server.dedicated.DedicatedServer]: Loading dimension data".

Definition chat_entry : string :=
  "[14:22:01] [Server thread/INFO] [net.minecraft.server.dedicated.DedicatedServer]: <Steve> hello world".

Definition empty_cwd_world : world :=
  World ∅ {[ "." := Directory [ ("notes.txt", Raise OSError) ] ]}.

Definition two_days_world : world :=
  World {[ "LOG_DIRECTORY" := "logs" ]}
        {[ "logs" := Directory
             [ ("2024-01-02-1.log.gz", Ok (String newline chat_entry));
               ("notes.txt", Raise OSError);
               ("2024-01-01-1.log.gz",
                Ok (String newline good_entry +:+ String newline loading_entry)) ] ]}.

Definition two_days_events : list event :=
  [ PlayerJoinLeave (Datetime (Date 2024 1 1) (Time 14 22 1)) "Alex" "join";
    PlayerMessage (Datetime (Date 2024 1 2) (Time 14 22 1)) "Steve" "hello world" ].

(** ** Vocabulary of the further properties *)

(** The three wordings of the advancement pattern. *)
Definition ADVANCEMENT_TYPES : list string :=
  ["made the advancement"; "completed the challenge"; "reached the goal"].

(** The three fields of an event, as the named tuples have them. *)
Definition event_time (e : event) : datetime :=
  match e with
  | PlayerJoinLeave t _ _ | PlayerAdvancement t _ _
  | PlayerDeath t _ _ | PlayerMessage t _ _ => t
  end.

Definition event_player (e : event) : string :=
  match e with
  | PlayerJoinLeave _ p _ | PlayerAdvancement _ p _
  | PlayerDeath _ p _ | PlayerMessage _ p _ => p
  end.

Definition event_text (e : event) : string :=
  match e with
  | PlayerJoinLeave _ _ x | PlayerAdvancement _ _ x
  | PlayerDeath _ _ x | PlayerMessage _ _ x => x
  end.

(** A time of day. *)
Definition time_of_day (t : time) : Prop :=
  (0 <= hour t < 24 /\ 0 <= minute t < 60 /\ 0 <= second t < 60)%Z.

Fixpoint count_char (c : ascii) (s : string) : nat :=
  match s with
  | "" => O
  | String a s' => (if Ascii.eqb c a then 1 else 0) + count_char c s'
  end.

(** The name of a log file: a date, a hyphen, a number and [.log.gz]. *)
Definition log_file_name (y1 y2 y3 y4 m1 m2 d1 d2 : ascii) (n : string) : string :=
  iso_date y1 y2 y3 y4 m1 m2 d1 d2 +:+ "-" +:+ n +:+ ".log.gz".

(** A text of one physical line, and an event whose texts are. *)
Definition single_line (s : string) : Prop :=
  str_exists (Ascii.eqb newline) s = false.

Definition single_line_event (e : event) : Prop :=
  single_line (event_player e) ∧ single_line (event_text e).

(** No setting, and a log file in the current directory. *)
Definition unset_world : world :=
  World ∅ {[ "." := Directory
                      [ ("notes.txt", Raise OSError);
                        ("2024-01-01-1.log.gz", Ok (String newline good_entry)) ] ]}.

(** The setting names nothing, or a regular file. *)
Definition missing_directory_world : world :=
  World {[ "LOG_DIRECTORY" := "logs" ]} ∅.

Definition regular_file_world : world :=
  World {[ "LOG_DIRECTORY" := "logs" ]} {[ "logs" := RegularFile ]}.

Definition bad_date_world : world :=
  World {[ "LOG_DIRECTORY" := "logs" ]}
        {[ "logs" := Directory
             [ ("2024-01-01-1.log.gz", Ok (String newline good_entry));
               ("2024-02-30-1.log.gz", Ok (String newline chat_entry)) ] ]}.

(** * Properties of the matcher *)

Section Matcher.

Lemma length_app (a b : string) :
  String.length (a +:+ b) = (String.length a + String.length b)%nat.
Proof. induction a as [|c a IH]; simpl; [done | by rewrite IH]. Qed.

Lemma str_take_length (a b : string) : str_take (String.length a) (a +:+ b) = a.
Proof. induction a as [|c a IH]; simpl; [by destruct b | by rewrite IH]. Qed.

(** What a group captures between [a +:+ b] and [b] is [a]. *)
Lemma str_take_app (a b : string) :
  str_take (String.length (a +:+ b) - String.length b) (a +:+ b) = a.
Proof.
  rewrite length_app.
  replace (String.length a + String.length b - String.length b)%nat
    with (String.length a) by lia.
  apply str_take_length.
Qed.

Lemma strip_app (p s : string) : strip p (p +:+ s) = Some s.
Proof. induction p as [|c p IH]; simpl; [done | by rewrite Ascii.eqb_refl]. Qed.

Lemma strip_length (p s s' : string) :
  strip p s = Some s' → (String.length s' <= String.length s)%nat.
Proof.
  revert s. induction p as [|c p IH]; intros s H; simpl in H.
  - by injection H as ->.
  - destruct s as [|b s]; [done|].
    destruct (Ascii.eqb c b); [|done].
    apply IH in H. simpl. lia.
Qed.

(** Whatever a repetition returns, its continuation returned it, on a
    suffix of the string. *)
Lemma rep_inv {A} cs s : ∀ lo hi (k : string → option A) a,
  rep cs lo hi s k = Some a →
  ∃ s', k s' = Some a ∧ (String.length s' <= String.length s)%nat.
Proof.
  induction s as [|c s IH]; intros lo hi k a H; simpl in H.
  - destruct lo; [|done]. by exists "".
  - assert (Hstop : match lo with O => k (String c s) | S _ => None end = Some a →
                    ∃ s', k s' = Some a ∧ (String.length s' <= String.length (String c s))%nat).
    { destruct lo; [|done]. intros Hk. by exists (String c s). }
    destruct (mem cs c && may_repeat hi); [|by apply Hstop].
    destruct (rep cs (Nat.pred lo) (Nat.pred <$> hi) s k) as [x|] eqn:E;
      [|by apply Hstop].
    injection H as ->. apply IH in E as (s' & Hk & Hlen).
    exists s'. split; [done | simpl; lia].
Qed.

(** Whatever [run] returns, its continuation returned it, on a suffix
    of the string and with the groups of other names untouched. *)
Lemma run_inv {A} r : ∀ s gs (k : string → groups → option A) a,
  run r s gs k = Some a →
  ∃ s' gs', k s' gs' = Some a
    ∧ (String.length s' <= String.length s)%nat
    ∧ ∀ n, n ∉ names r → lookup_group n gs' = lookup_group n gs.
Proof.
  induction r as [p|cs|cs lo hi|r1 IH1 r2 IH2|r1 IH1 r2 IH2|name r1 IH1];
    intros s gs k a H; simpl in H.
  - destruct (strip p s) as [s'|] eqn:E; [|done].
    exists s', gs. eauto using strip_length.
  - destruct s as [|c s]; [done|]. destruct (mem cs c); [|done].
    exists s, gs. simpl. split_and!; [done | lia | done].
  - apply rep_inv in H as (s' & Hk & Hlen). by exists s', gs.
  - apply IH1 in H as (s1 & gs1 & H & Hlen1 & Hg1).
    apply IH2 in H as (s2 & gs2 & H & Hlen2 & Hg2).
    exists s2, gs2. split_and!; [done | lia |].
    intros n Hn. simpl in Hn. rewrite Hg2, Hg1; [done | set_solver..].
  - destruct (run r1 s gs k) as [x|] eqn:E.
    + injection H as ->. apply IH1 in E as (s' & gs' & H & Hlen & Hg).
      exists s', gs'. split_and!; [done..|]. intros n Hn. apply Hg. set_solver.
    + apply IH2 in H as (s' & gs' & H & Hlen & Hg).
      exists s', gs'. split_and!; [done..|]. intros n Hn. apply Hg. set_solver.
  - apply IH1 in H as (s' & gs' & H & Hlen & Hg).
    eexists _, _. split_and!; [exact H | done |].
    intros n Hn. simpl.
    destruct (String.eqb_spec name n) as [->|]; [set_solver|].
    apply Hg. set_solver.
Qed.

(** A repetition with a fixed count has one way to match. *)
Lemma rep_fixed {A} cs n : ∀ s (k : string → option A),
  rep cs n (Some n) s k =
  match rep cs n (Some n) s Some with
  | Some s' => k s'
  | None => None
  end.
Proof.
  induction n as [|n IH]; intros s k.
  - destruct s as [|c s]; simpl; [done|]. by rewrite andb_false_r.
  - destruct s as [|c s]; simpl; [done|].
    destruct (mem cs c); simpl; [|done].
    rewrite (IH s k).
    destruct (rep cs n (Some n) s Some) as [x|]; [by destruct (k x) | done].
Qed.

(** A pattern without choice has one way to match: the matcher runs
    it to its end and then calls the continuation once. *)
Lemma run_linear r : linear r = true →
  ∀ A s gs (k : string → groups → option A),
  run r s gs k =
  match run r s gs (fun s' gs' => Some (gs', s')) with
  | Some (gs', s') => k s' gs'
  | None => None
  end.
Proof.
  induction r as [p|cs|cs lo hi|r1 IH1 r2 IH2|r1 IH1 r2 IH2|name r1 IH1];
    intros Hl A s gs k; simpl in *.
  - by destruct (strip p s).
  - destruct s as [|c s]; [done|]. by destruct (mem cs c).
  - apply bool_decide_eq_true in Hl as ->.
    rewrite (rep_fixed cs lo s (fun s' => k s' gs)).
    rewrite (rep_fixed cs lo s (fun s' => Some (gs, s'))).
    by destruct (rep cs lo (Some lo) s Some).
  - apply andb_true_iff in Hl as [Hl1 Hl2].
    rewrite (IH1 Hl1 _ s gs (fun s' gs' => run r2 s' gs' k)).
    rewrite (IH1 Hl1 _ s gs (fun s' gs' => run r2 s' gs' (fun s'' gs'' => Some (gs'', s'')))).
    destruct (run r1 s gs (fun s' gs' => Some (gs', s'))) as [[gs1 s1]|]; [|done].
    apply (IH2 Hl2).
  - done.
  - rewrite (IH1 Hl _ s gs (fun s' gs' => k s' ((name, _) :: gs'))).
    rewrite (IH1 Hl _ s gs (fun s' gs' => Some ((name, _) :: gs', s'))).
    by destruct (run r1 s gs (fun s' gs' => Some (gs', s'))) as [[gs1 s1]|].
Qed.

End Matcher.

(** * The classifier *)

Section Classifier.

(** Every entry pattern is [ENTRY_HEAD] and a tail; the head has one
    way to match, so the tail starts where the head ends. *)
Lemma match_head_tail (tail : regex) (s : string) :
  match_ (Seq ENTRY_HEAD tail) s =
  match match_ ENTRY_HEAD s with
  | Some (hg, s') => run tail s' hg (fun s'' gs => Some (gs, s''))
  | None => None
  end.
Proof.
  unfold match_. cbn [run].
  by rewrite (run_linear ENTRY_HEAD eq_refl).
Qed.

(** The time of a match of an entry pattern is the time of the head. *)
Lemma match_time (tail : regex) (s : string) (m : groups * string) :
  "time" ∉ names tail →
  match_ (Seq ENTRY_HEAD tail) s = Some m →
  ∃ hg s', match_ ENTRY_HEAD s = Some (hg, s') ∧ group m.1 "time" = group hg "time".
Proof.
  intros Hn H. rewrite match_head_tail in H.
  destruct (match_ ENTRY_HEAD s) as [[hg s']|]; [|done].
  apply run_inv in H as (s'' & gs & [= <-] & _ & Hg).
  exists hg, s'. split; [done|]. unfold group. simpl. by rewrite (Hg "time" Hn).
Qed.

Lemma entry_format_time (r : regex) (s : string) (m : groups * string) :
  r ∈ ENTRY_FORMATS → match_ r s = Some m →
  ∃ hg s', match_ ENTRY_HEAD s = Some (hg, s') ∧ group m.1 "time" = group hg "time".
Proof.
  intros Hr. unfold ENTRY_FORMATS in Hr.
  repeat (apply elem_of_cons in Hr as [->|Hr]);
    [apply match_time; apply (bool_decide_unpack _); by vm_compute.. |
     by apply elem_of_nil in Hr].
Qed.

(** Two matches of entry patterns on one entry carry the same time. *)
Lemma same_time (r1 r2 : regex) (s : string) (m1 m2 : groups * string) :
  r1 ∈ ENTRY_FORMATS → r2 ∈ ENTRY_FORMATS →
  match_ r1 s = Some m1 → match_ r2 s = Some m2 →
  group m1.1 "time" = group m2.1 "time".
Proof.
  intros Hr1 Hr2 H1 H2.
  destruct (entry_format_time _ _ _ Hr1 H1) as (hg1 & s1 & E1 & ->).
  destruct (entry_format_time _ _ _ Hr2 H2) as (hg2 & s2 & E2 & ->).
  congruence.
Qed.

End Classifier.

Section Raises.

Lemma time_fromisoformat_raises (s : string) (e : exn) :
  time_fromisoformat s = Raise e → e = ValueError.
Proof.
  unfold time_fromisoformat, make_time. intros H.
  repeat case_match; congruence.
Qed.

Lemma stamp_raises (d : date) (gs : groups) (e : exn) :
  stamp d gs = Raise e → e = ValueError.
Proof.
  unfold stamp. destruct (time_fromisoformat _) eqn:E; simpl; [done|].
  intros [= <-]. eauto using time_fromisoformat_raises.
Qed.

Lemma classify_raises (entry : string) (d : date) (e : exn) :
  classify entry d = Raise e → e = ValueError.
Proof.
  unfold classify. intros H.
  repeat case_match; try done;
    match goal with
    | H : rbind (stamp ?d ?g) _ = Raise _ |- _ =>
        destruct (stamp d g) eqn:E; simpl in H; [done|];
        injection H as <-; eauto using stamp_raises
    end.
Qed.

Lemma collect_raises (entries : list string) (d : date) (e : exn) :
  collect entries d = Raise e → e = ValueError.
Proof.
  induction entries as [|entry rest IH]; simpl; [done|].
  destruct (classify entry d) as [o|e'] eqn:E; simpl.
  - destruct (collect rest d); simpl; [done|]. intros [= <-]. by apply IH.
  - intros [= <-]. eauto using classify_raises.
Qed.

(** An entry that raises ends the loop over the entries. *)
Lemma collect_stops (before after : list string) (entry : string) (d : date) :
  classify entry d = Raise ValueError →
  collect (before ++ entry :: after) d = Raise ValueError.
Proof.
  intros H. induction before as [|b before IH]; simpl.
  - by rewrite H.
  - destruct (classify b d) as [o|e] eqn:E; simpl.
    + by rewrite IH.
    + f_equal. eauto using classify_raises.
Qed.

End Raises.

(** C1. An entry that matches one of the entry patterns and whose time
    field is not a time of day makes the classification raise
    [ValueError], unless the death fallback drops the entry for its first
    word before the time is read. No event comes out of it; the exception
    ends the loop over the entries, whatever comes before and after. *)
Theorem malformed_time_raises (entry : string) (log_date : date)
    (r : regex) (m : groups * string) :
  r ∈ ENTRY_FORMATS →
  match_ r entry = Some m →
  time_fromisoformat (group m.1 "time") = Raise ValueError →
  classify entry log_date =
    (if dropped_by_denylist entry then Ok None else Raise ValueError)
  ∧ (dropped_by_denylist entry = false →
     ∀ before after,
       collect (before ++ entry :: after) log_date = Raise ValueError).
Proof.
  intros Hr Hm Ht.
  assert (Hstamp : ∀ r' m', r' ∈ ENTRY_FORMATS → match_ r' entry = Some m' →
            stamp log_date m'.1 = Raise ValueError).
  { intros r' m' Hr' Hm'. unfold stamp.
    by rewrite (same_time r' r entry m' m Hr' Hr Hm' Hm), Ht. }
  assert (Hc : classify entry log_date =
               if dropped_by_denylist entry then Ok None else Raise ValueError).
  { unfold classify, dropped_by_denylist, ENTRY_FORMATS in *.
    destruct (match_ JOIN_FORMAT entry) as [[g ?]|] eqn:E1.
    { pose proof (Hstamp JOIN_FORMAT (g, s) ltac:(repeat constructor) E1) as Hs.
      simpl in Hs. by rewrite Hs. }
    destruct (match_ LEAVE_FORMAT entry) as [[g ?]|] eqn:E2.
    { pose proof (Hstamp LEAVE_FORMAT (g, s) ltac:(repeat constructor) E2) as Hs.
      simpl in Hs. by rewrite Hs. }
    destruct (match_ ADVANCEMENT_FORMAT entry) as [[g ?]|] eqn:E3.
    { pose proof (Hstamp ADVANCEMENT_FORMAT (g, s) ltac:(repeat constructor) E3) as Hs.
      simpl in Hs. by rewrite Hs. }
    destruct (match_ DEATH_FORMAT entry) as [[g ?]|] eqn:E4.
    { destruct (bool_decide _); [done|].
      pose proof (Hstamp DEATH_FORMAT (g, s) ltac:(repeat constructor) E4) as Hs.
      simpl in Hs. by rewrite Hs. }
    destruct (match_ MESSAGE_FORMAT entry) as [[g ?]|] eqn:E5.
    { pose proof (Hstamp MESSAGE_FORMAT (g, s) ltac:(repeat constructor) E5) as Hs.
      simpl in Hs. by rewrite Hs. }
    repeat (apply elem_of_cons in Hr as [->|Hr]); try congruence.
    by apply elem_of_nil in Hr. }
  split; [done|].
  intros Hd before after. apply collect_stops. by rewrite Hc, Hd.
Qed.

(** C4. An entry that matches none of the join, leave and advancement
    patterns, and whose first word, as the death pattern captures it, is
    in [NOT_PLAYERS], gives no event. *)
Theorem denylist_drops (entry : string) (log_date : date) (m : groups * string) :
  match_ JOIN_FORMAT entry = None →
  match_ LEAVE_FORMAT entry = None →
  match_ ADVANCEMENT_FORMAT entry = None →
  match_ DEATH_FORMAT entry = Some m →
  group m.1 "player" ∈ NOT_PLAYERS →
  classify entry log_date = Ok None.
Proof.
  intros Hj Hl Ha Hd Hp. unfold classify.
  rewrite Hj, Hl, Ha, Hd. destruct m as [death_entry rest]. simpl in *.
  by rewrite bool_decide_eq_true_2.
Qed.

(** C5. A string the chat pattern matches is not matched by the death
    pattern, so the classification of a chat line is never a death. *)
Theorem chat_is_not_death (s : string) (m : groups * string) :
  match_ MESSAGE_FORMAT s = Some m →
  match_ DEATH_FORMAT s = None
  ∧ ∀ log_date t player cause,
      classify s log_date ≠ Ok (Some (PlayerDeath t player cause)).
Proof.
  intros Hm.
  assert (Hd : match_ DEATH_FORMAT s = None).
  { unfold MESSAGE_FORMAT, DEATH_FORMAT in *. cbn [cat] in *.
    rewrite match_head_tail in *.
    destruct (match_ ENTRY_HEAD s) as [[hg s']|]; [|done].
    destruct s' as [|c s']; [done|].
    cbn [run strip] in Hm.
    destruct (Ascii.eqb_spec "<" c) as [<-|]; [|done].
    reflexivity. }
  split; [done|].
  intros log_date t player cause. unfold classify. rewrite Hd.
  repeat case_match; try done;
    match goal with
    | |- rbind ?x _ ≠ _ => by destruct x
    end.
Qed.

Section WellFormedLines.

(** A greedy repetition takes a whole run of characters of the set when
    the run has an allowed length and the pattern goes on after it. *)
Lemma rep_greedy {A} cs a : ∀ lo hi rest (k : string → option A) x,
  str_forall (mem cs) a = true →
  (lo <= String.length a)%nat →
  (∀ h, hi = Some h → (String.length a <= h)%nat) →
  stops cs rest = true →
  k rest = Some x →
  rep cs lo hi (a +:+ rest) k = Some x.
Proof.
  induction a as [|c a IH]; intros lo hi rest k x Ha Hlo Hhi Hstop Hk.
  - simpl in Hlo. assert (lo = O) as -> by lia.
    destruct rest as [|c rest]; cbn [String.append rep]; [done|].
    cbn [stops] in Hstop. apply negb_true_iff in Hstop. by rewrite Hstop.
  - simpl in Ha. apply andb_true_iff in Ha as [Hc Ha].
    cbn [String.append rep]. rewrite Hc.
    assert (may_repeat hi = true) as ->.
    { destruct hi as [[|h]|]; try done. specialize (Hhi O eq_refl). simpl in Hhi. lia. }
    cbn [andb].
    rewrite (IH (Nat.pred lo) (Nat.pred <$> hi) rest k x); try done.
    + simpl in Hlo. lia.
    + intros h Hh. destruct hi as [h'|]; [|done]. injection Hh as <-.
      specialize (Hhi h' eq_refl). simpl in Hhi. lia.
Qed.

(** A group around a pattern that takes [a] captures [a]. *)
Lemma run_grp name r a rest gs gs' :
  (∀ B (k' : string → groups → option B), run r (a +:+ rest) gs k' = k' rest gs') →
  ∀ A (k : string → groups → option A),
    run (Grp name r) (a +:+ rest) gs k = k rest ((name, a) :: gs').
Proof. intros H A k. cbn [run]. rewrite H. by rewrite str_take_app. Qed.

Lemma run_player {A} player rest gs (k : string → groups → option A) x :
  str_forall is_word player = true →
  (1 <= String.length player <= 16)%nat →
  stops Word rest = true →
  k rest (("player", player) :: gs) = Some x →
  run PLAYER (player +:+ rest) gs k = Some x.
Proof.
  intros Hw [Hlo Hhi] Hstop Hk. unfold PLAYER. cbn [run].
  apply rep_greedy; try done.
  - by intros h [= <-].
  - by rewrite str_take_app.
Qed.

Lemma number_digits (a b : ascii) (n : Z) :
  number (String a (String b "")) = Some n →
  is_digit a = true ∧ is_digit b = true.
Proof.
  simpl. destruct (is_digit a); [|done]. by destruct (is_digit b).
Qed.

(** The strings [time.fromisoformat] accepts here are [dd:dd:dd]. *)
Lemma time_shape (clock : string) (t : time) :
  time_fromisoformat clock = Ok t →
  ∃ h1 h2 m1 m2 s1 s2,
    clock = String h1 (String h2 (String ":" (String m1 (String m2
              (String ":" (String s1 (String s2 "")))))))
    ∧ is_digit h1 = true ∧ is_digit h2 = true ∧ is_digit m1 = true
    ∧ is_digit m2 = true ∧ is_digit s1 = true ∧ is_digit s2 = true.
Proof.
  unfold time_fromisoformat. intros H.
  do 8 (destruct clock as [|? clock]; [done|]).
  destruct clock; [|done].
  destruct (Ascii.eqb_spec a1 colon) as [->|]; [|done].
  destruct (Ascii.eqb_spec a4 colon) as [->|]; [|done].
  cbn [andb] in H.
  destruct (number (String a (String a0 ""))) as [h|] eqn:E1; [|done].
  destruct (number (String a2 (String a3 ""))) as [m|] eqn:E2; [|done].
  destruct (number (String a5 (String a6 ""))) as [s|] eqn:E3; [|done].
  apply number_digits in E1 as [? ?], E2 as [? ?], E3 as [? ?].
  by exists a, a0, a2, a3, a5, a6.
Qed.

Lemma run_seq {A} r1 r2 s gs (k : string → groups → option A) :
  run (Seq r1 r2) s gs k = run r1 s gs (fun s' gs' => run r2 s' gs' k).
Proof. reflexivity. Qed.

Lemma run_lit {A} p s gs (k : string → groups → option A) :
  run (Lit p) (p +:+ s) gs k = k s gs.
Proof. cbn [run]. by rewrite strip_app. Qed.

Lemma run_dot {A} c s gs (k : string → groups → option A) :
  c ≠ newline → run (Set_ Dot) (String c s) gs k = k s gs.
Proof.
  intros Hc. cbn [run mem]. by destruct (Ascii.eqb_spec c newline).
Qed.

Lemma run_exactly {A} cs a : ∀ n rest gs (k : string → groups → option A),
  str_forall (mem cs) a = true → String.length a = n →
  run (exactly cs n) (a +:+ rest) gs k = k rest gs.
Proof.
  unfold exactly. cbn [run].
  induction a as [|c a IH]; intros n rest gs k Ha <-.
  - destruct rest; cbn [String.append String.length rep may_repeat]; [done|].
    by rewrite andb_false_r.
  - cbn [str_forall] in Ha. apply andb_true_iff in Ha as [Hc Ha].
    cbn [String.append String.length rep may_repeat Nat.pred fmap option_fmap option_map].
    rewrite Hc. cbn [andb].
    rewrite (IH (String.length a) rest gs k Ha eq_refl).
    by destruct (k rest gs).
Qed.

Lemma run_clock {A} h1 h2 m1 m2 s1 s2 rest gs (k : string → groups → option A) :
  is_digit h1 = true → is_digit h2 = true → is_digit m1 = true →
  is_digit m2 = true → is_digit s1 = true → is_digit s2 = true →
  run CLOCK (String h1 (String h2 (String ":" (String m1 (String m2
              (String ":" (String s1 (String s2 rest)))))))) gs k = k rest gs.
Proof.
  intros H1 H2 H3 H4 H5 H6.
  change (String h1 (String h2 (String ":" (String m1 (String m2
            (String ":" (String s1 (String s2 rest))))))))
    with (String h1 (String h2 "") +:+ ":" +:+ String m1 (String m2 "")
          +:+ ":" +:+ String s1 (String s2 "") +:+ rest).
  unfold CLOCK. cbn [cat].
  rewrite run_seq, run_exactly; [|by cbn [str_forall mem]; rewrite H1, H2|done].
  rewrite run_seq, run_lit.
  rewrite run_seq, run_exactly; [|by cbn [str_forall mem]; rewrite H3, H4|done].
  rewrite run_seq, run_lit.
  rewrite run_exactly; [done|by cbn [str_forall mem]; rewrite H5, H6|done].
Qed.

Lemma run_head {A} clock t rest gs (k : string → groups → option A) :
  time_fromisoformat clock = Ok t →
  run ENTRY_HEAD ("[" +:+ clock +:+ SERVER_TAG +:+ rest) gs k
  = k rest (("time", clock) :: gs).
Proof.
  intros Ht.
  destruct (time_shape _ _ Ht) as (h1 & h2 & m1 & m2 & s1 & s2 & -> & Hd).
  destruct Hd as (? & ? & ? & ? & ? & ?).
  unfold ENTRY_HEAD. cbn [cat].
  rewrite run_seq, run_lit.
  rewrite run_seq, (run_grp "time" CLOCK _ _ gs gs);
    [|intros B k'; by apply run_clock].
  change (SERVER_TAG +:+ rest)
    with ("] [Server thread/INFO] [net" +:+ String "." ("minecraft" +:+
          String "." ("server" +:+ String "." ("dedicated" +:+
          String "." ("DedicatedServer]: " +:+ rest))))).
  rewrite run_seq, run_lit.
  do 3 (rewrite run_seq, run_dot by done; rewrite run_seq, run_lit).
  rewrite run_seq, run_dot by done.
  by rewrite run_lit.
Qed.

End WellFormedLines.

(** C6. A join line with a time of day and a player name of 1 to 16
    word characters is classified as a join of that player, stamped with
    the date of the log and the time of the line. *)
Theorem join_line_classified (clock player : string) (t : time) (log_date : date) :
  time_fromisoformat clock = Ok t →
  str_forall is_word player = true →
  (1 <= String.length player <= 16)%nat →
  classify ("[" +:+ clock +:+ SERVER_TAG +:+ player +:+ " joined the game") log_date
  = Ok (Some (PlayerJoinLeave (combine log_date t) player "join")).
Proof.
  intros Ht Hw Hlen.
  assert (E : match_ JOIN_FORMAT
            ("[" +:+ clock +:+ SERVER_TAG +:+ player +:+ " joined the game")
          = Some ([("player", player); ("time", clock)], "")).
  { unfold match_, JOIN_FORMAT. cbn [cat]. cbn [run].
    rewrite (run_head clock t _ _ _ Ht).
    by apply run_player. }
  unfold classify. rewrite E. unfold stamp, group. simpl lookup_group.
  simpl default. by rewrite Ht.
Qed.

(** * The entries of a log *)

Section Entries.

Lemma strip_inv (p s s' : string) : strip p s = Some s' → s = p +:+ s'.
Proof.
  revert s. induction p as [|a p IH]; intros s H; cbn [strip] in H.
  - by injection H as ->.
  - destruct s as [|b s]; [done|].
    destruct (Ascii.eqb_spec a b) as [->|]; [|done].
    cbn [String.append]. f_equal. by apply IH.
Qed.

Lemma run_lit_inv {A} p s gs (k : string → groups → option A) x :
  run (Lit p) s gs k = Some x → ∃ s', s = p +:+ s' ∧ k s' gs = Some x.
Proof.
  cbn [run]. destruct (strip p s) as [s'|] eqn:E; [|done].
  intros H. exists s'. split; [by apply strip_inv | done].
Qed.

Lemma rep_zero {A} cs s (k : string → option A) : rep cs 0 (Some O) s k = k s.
Proof. destruct s; cbn [rep may_repeat]; [done|]. by rewrite andb_false_r. Qed.

Lemma run_two_inv {A} cs s gs (k : string → groups → option A) x :
  run (exactly cs 2) s gs k = Some x →
  ∃ a b s', s = String a (String b s') ∧ mem cs a = true ∧ mem cs b = true
            ∧ k s' gs = Some x.
Proof.
  unfold exactly. cbn [run]. intros H.
  destruct s as [|a [|b s']]; cbn [rep may_repeat Nat.pred fmap option_fmap option_map] in H;
    try done.
  - by destruct (mem cs a).
  - destruct (mem cs a) eqn:Ea; [|done]. destruct (mem cs b) eqn:Eb; [|done].
    cbn [andb] in H. rewrite rep_zero in H.
    exists a, b, s'. split_and!; try done. by destruct (k s' gs).
Qed.

Lemma run_clock_inv {A} s gs (k : string → groups → option A) x :
  run CLOCK s gs k = Some x →
  ∃ h1 h2 m1 m2 s1 s2 rest,
    s = String h1 (String h2 (String ":" (String m1 (String m2
          (String ":" (String s1 (String s2 rest)))))))
    ∧ (is_digit h1 = true ∧ is_digit h2 = true ∧ is_digit m1 = true
       ∧ is_digit m2 = true ∧ is_digit s1 = true ∧ is_digit s2 = true)
    ∧ k rest gs = Some x.
Proof.
  unfold CLOCK. cbn [cat]. intros H.
  rewrite run_seq in H. apply run_two_inv in H as (h1 & h2 & r1 & -> & ? & ? & H).
  rewrite run_seq in H. apply run_lit_inv in H as (r2 & -> & H).
  rewrite run_seq in H. apply run_two_inv in H as (m1 & m2 & r3 & -> & ? & ? & H).
  rewrite run_seq in H. apply run_lit_inv in H as (r4 & -> & H).
  apply run_two_inv in H as (s1 & s2 & r5 & -> & ? & ? & H).
  by exists h1, h2, m1, m2, s1, s2, r5.
Qed.

(** A line has the marker when and only when it is [[dd:dd:dd]], a
    space and a rest. *)
Lemma has_marker_shape (l : string) :
  has_marker l = true ↔
  ∃ h1 h2 m1 m2 s1 s2 rest,
    l = "[" +:+ String h1 (String h2 (String ":" (String m1 (String m2
          (String ":" (String s1 (String s2 ("] " +:+ rest))))))))
    ∧ (is_digit h1 = true ∧ is_digit h2 = true ∧ is_digit m1 = true
       ∧ is_digit m2 = true ∧ is_digit s1 = true ∧ is_digit s2 = true).
Proof.
  split.
  - intros H. do 11 (destruct l as [|? l]; [done|]).
    cbn [has_marker] in H. repeat (apply andb_true_iff in H as [H ?]).
    repeat match goal with
           | H : Ascii.eqb _ _ = true |- _ => apply Ascii.eqb_eq in H as <-
           end.
    by exists a0, a1, a3, a4, a6, a7, l.
  - intros (h1 & h2 & m1 & m2 & s1 & s2 & rest & -> & H1 & H2 & H3 & H4 & H5 & H6).
    cbn [String.append has_marker]. by rewrite H1, H2, H3, H4, H5, H6.
Qed.

Lemma after_line_length (s : string) :
  (String.length (after_line s) <= String.length s)%nat.
Proof.
  induction s as [|c s IH]; cbn [after_line]; [done|].
  destruct (Ascii.eqb c newline); cbn [String.length]; lia.
Qed.

(** What lies between a text and its rest after the first line is the
    first line. *)
Lemma take_first_line (s : string) :
  str_take (String.length s - String.length (after_line s)) s = first_line s.
Proof.
  induction s as [|c s IH]; cbn [after_line first_line]; [done|].
  destruct (Ascii.eqb c newline).
  - by rewrite Nat.sub_diag.
  - pose proof (after_line_length s). cbn [String.length].
    replace (S (String.length s) - String.length (after_line s))%nat
      with (S (String.length s - String.length (after_line s))) by lia.
    cbn [str_take]. by rewrite IH.
Qed.

Lemma lines_head (s : string) : lines s = first_line s :: tail (lines s).
Proof.
  induction s as [|c s IH]; cbn [lines first_line]; [done|].
  destruct (Ascii.eqb c newline); [done|]. by rewrite IH.
Qed.

Lemma lines_after (s : string) : tail (lines s) = tail (lines (after_line s)).
Proof.
  induction s as [|c s IH]; cbn [lines after_line]; [done|].
  destruct (Ascii.eqb c newline) eqn:E.
  - cbn [lines]. by rewrite E.
  - rewrite <- IH. by rewrite (lines_head s).
Qed.

Lemma first_line_app (p r : string) :
  str_exists (Ascii.eqb newline) p = false →
  first_line (p +:+ r) = p +:+ first_line r.
Proof.
  induction p as [|c p IH]; cbn [str_exists String.append first_line]; [done|].
  intros [Hc Hp]%orb_false_iff. rewrite Ascii.eqb_sym in Hc.
  by rewrite Hc, IH.
Qed.

Lemma after_line_app (p r : string) :
  str_exists (Ascii.eqb newline) p = false →
  after_line (p +:+ r) = after_line r.
Proof.
  induction p as [|c p IH]; cbn [str_exists String.append after_line]; [done|].
  intros [Hc Hp]%orb_false_iff. rewrite Ascii.eqb_sym in Hc.
  by rewrite Hc, IH.
Qed.

Lemma first_line_prefix (p r s : string) :
  first_line s = p +:+ r → ∃ s', s = p +:+ s' ∧ first_line s' = r.
Proof.
  revert s. induction p as [|c p IH]; intros s H; cbn [String.append] in *.
  - by exists s.
  - destruct s as [|b s]; [done|]. cbn [first_line] in H.
    destruct (Ascii.eqb b newline); [done|].
    injection H as -> H. apply IH in H as (s' & -> & H). by exists s'.
Qed.

Lemma digit_not_newline (c : ascii) : is_digit c = true → Ascii.eqb newline c = false.
Proof. intros H. by destruct (Ascii.eqb_spec newline c) as [<-|]. Qed.

Lemma marker_no_newline h1 h2 m1 m2 s1 s2 :
  is_digit h1 = true ∧ is_digit h2 = true ∧ is_digit m1 = true
  ∧ is_digit m2 = true ∧ is_digit s1 = true ∧ is_digit s2 = true →
  str_exists (Ascii.eqb newline) (marker h1 h2 m1 m2 s1 s2) = false.
Proof.
  intros (H1 & H2 & H3 & H4 & H5 & H6). unfold marker.
  cbn [String.append str_exists].
  rewrite (digit_not_newline h1 H1), (digit_not_newline h2 H2),
    (digit_not_newline m1 H3), (digit_not_newline m2 H4),
    (digit_not_newline s1 H5), (digit_not_newline s2 H6).
  reflexivity.
Qed.

Lemma has_marker_marker (l : string) :
  has_marker l = true ↔
  ∃ h1 h2 m1 m2 s1 s2 rest,
    l = marker h1 h2 m1 m2 s1 s2 +:+ rest
    ∧ (is_digit h1 = true ∧ is_digit h2 = true ∧ is_digit m1 = true
       ∧ is_digit m2 = true ∧ is_digit s1 = true ∧ is_digit s2 = true).
Proof. apply has_marker_shape. Qed.

(** Whether a text starts with the marker is decided on its first line. *)
Lemma has_marker_first_line (s : string) : has_marker (first_line s) = has_marker s.
Proof.
  apply eq_true_iff_eq. rewrite !has_marker_marker. split.
  - intros (h1 & h2 & m1 & m2 & s1 & s2 & rest & H & Hd).
    apply first_line_prefix in H as (s' & -> & _).
    by exists h1, h2, m1, m2, s1, s2, s'.
  - intros (h1 & h2 & m1 & m2 & s1 & s2 & rest & -> & Hd).
    exists h1, h2, m1, m2, s1, s2, (first_line rest). split; [|done].
    by rewrite first_line_app by by apply marker_no_newline.
Qed.

(** [.*] takes the rest of the physical line when nothing after it can fail. *)
Lemma rep_dot_all {A} (s : string) (k : string → option A) :
  (∀ s', is_Some (k s')) → rep Dot 0 None s k = k (after_line s).
Proof.
  intros Hk. induction s as [|c s IH]; cbn [rep after_line mem may_repeat]; [done|].
  destruct (Ascii.eqb c newline); cbn [negb andb]; [done|].
  cbn [Nat.pred fmap option_fmap option_map]. rewrite IH.
  by destruct (Hk (after_line s)) as [x ->].
Qed.

Lemma run_char {A} a c s gs (k : string → groups → option A) :
  run (Lit (String a "")) (String c s) gs k = if Ascii.eqb a c then k s gs else None.
Proof. cbn [run strip]. by destruct (Ascii.eqb a c). Qed.

Lemma run_grp_unfold {A} name r s gs (k : string → groups → option A) :
  run (Grp name r) s gs k =
  run r s gs (fun s' gs' =>
    k s' ((name, str_take (String.length s - String.length s') s) :: gs')).
Proof. reflexivity. Qed.

(** The inside of the group of the entry pattern takes a physical line
    that starts with the marker. *)
Lemma run_entry_line {A} s gs (k : string → groups → option A) :
  has_marker s = true → (∀ s' gs', is_Some (k s' gs')) →
  run (cat [Lit "["; CLOCK; Lit "] "; Rep Dot 0 None]) s gs k = k (after_line s) gs.
Proof.
  intros Hm Hk.
  apply has_marker_marker in Hm as (h1 & h2 & m1 & m2 & s1 & s2 & rest & -> & Hd).
  rewrite after_line_app by by apply marker_no_newline.
  destruct Hd as (? & ? & ? & ? & ? & ?).
  unfold marker. cbn [cat String.append].
  rewrite run_seq, run_char, Ascii.eqb_refl.
  rewrite run_seq, run_clock by done.
  change (String "]" (String " " rest)) with ("] " +:+ rest).
  rewrite run_seq, run_lit.
  cbn [run]. by rewrite rep_dot_all.
Qed.

(** The matches of the entry pattern: at a newline that the marker
    follows, the group is the physical line after the newline and the
    match ends at the end of that line. *)
Lemma match_entry (s : string) :
  match_ LOG_ENTRY_FORMAT s =
  match s with
  | String c s' =>
      if Ascii.eqb newline c && has_marker s'
      then Some ([("1", first_line s')], after_line s')
      else None
  | "" => None
  end.
Proof.
  unfold match_.
  change LOG_ENTRY_FORMAT
    with (Seq (Lit (String newline ""))
              (Grp "1" (cat [Lit "["; CLOCK; Lit "] "; Rep Dot 0 None]))).
  rewrite run_seq.
  destruct s as [|c s']; [done|]. rewrite run_char.
  destruct (Ascii.eqb newline c); cbn [andb]; [|done].
  rewrite run_grp_unfold.
  destruct (has_marker s') eqn:Hm.
  - rewrite run_entry_line by eauto. by rewrite take_first_line.
  - destruct (run _ s' [] _) as [x|] eqn:E; [|done]. exfalso.
    assert (has_marker s' = true); [|congruence].
    cbn [cat] in E.
    rewrite run_seq in E. apply run_lit_inv in E as (r1 & -> & E).
    rewrite run_seq in E.
    apply run_clock_inv in E as (h1 & h2 & m1 & m2 & s1 & s2 & r2 & -> & Hd & E).
    rewrite run_seq in E. apply run_lit_inv in E as (r3 & -> & E).
    apply has_marker_shape. by exists h1, h2, m1, m2, s1, s2, r3.
Qed.

(** The entries of a log: the physical lines after the first one that
    start with the marker. *)
Lemma findall_steps_lines (n : nat) : ∀ s,
  (String.length s < n)%nat →
  findall_steps n LOG_ENTRY_FORMAT s = filter has_marker (tail (lines s)).
Proof.
  induction n as [|n IH]; intros s Hlen; [lia|].
  cbn [findall_steps]. rewrite match_entry.
  destruct s as [|c s']; [done|]. cbn [String.length] in Hlen.
  pose proof (after_line_length s') as Hafter.
  destruct (Ascii.eqb_spec newline c) as [<-|Hc]; cbn [andb].
  - cbn [lines tail]. rewrite Ascii.eqb_refl. cbn [tail].
    rewrite (lines_head s'), filter_cons, has_marker_first_line.
    destruct (has_marker s') eqn:Hm.
    + assert (Nat.ltb (String.length (after_line s'))
                      (String.length (String newline s')) = true)
        as -> by (apply Nat.ltb_lt; cbn [String.length]; lia).
      rewrite decide_True by done.
      unfold group. cbn [lookup_group String.eqb Ascii.eqb Bool.eqb default].
      rewrite IH by lia. by rewrite <- lines_after.
    + rewrite decide_False by exact id.
      rewrite IH by lia. done.
  - rewrite IH by lia. cbn [lines].
    destruct (Ascii.eqb_spec c newline) as [->|]; [done|].
    by rewrite (lines_head s').
Qed.

Lemma findall_lines (log : string) :
  findall LOG_ENTRY_FORMAT log = filter has_marker (tail (lines log)).
Proof. apply findall_steps_lines. lia. Qed.

(** No physical line has a newline in it. *)
Lemma lines_no_newline (s : string) :
  Forall (fun l => str_exists (Ascii.eqb newline) l = false) (lines s).
Proof.
  induction s as [|c s IH]; cbn [lines].
  - by repeat constructor.
  - destruct (Ascii.eqb_spec c newline) as [->|Hc].
    + by constructor.
    + assert (Hn : Ascii.eqb newline c = false)
        by by destruct (Ascii.eqb_spec newline c) as [<-|].
      destruct (lines s) as [|l ls]; inversion IH; subst; constructor; try done;
        cbn [str_exists]; by rewrite Hn.
Qed.

End Entries.

(** C2. The entries of a log of ASCII text are the physical lines that
    follow a newline and start with the marker, each up to the end of
    its own physical line: no entry has a newline in it, so that a
    continuation line is in no entry. *)
Theorem entries_are_marked_lines (log : string) :
  ascii_text log →
  findall LOG_ENTRY_FORMAT log = filter has_marker (tail (lines log))
  ∧ Forall (fun entry => str_exists (Ascii.eqb newline) entry = false)
      (findall LOG_ENTRY_FORMAT log).
Proof.
  intros _. split; [apply findall_lines|].
  rewrite findall_lines.
  pose proof (lines_no_newline log) as Hn. rewrite lines_head in Hn.
  apply Forall_cons in Hn as [_ Hn].
  induction Hn as [|l ls Hl Hls IH]; [constructor|].
  rewrite filter_cons. destruct (decide (has_marker l)); [by constructor | done].
Qed.

(** C2, as the specification has it, fails on a log with a stack trace:
    the pattern cuts the entry at the end of its first physical line. *)
Lemma continuation_line_lost :
  findall LOG_ENTRY_FORMAT trace_log = ["[12:00:00] boom"; "[12:00:01] next"]
  ∧ spec_entries trace_log
    = ["[12:00:00] boom" +:+ String newline "  at foo"; "[12:00:01] next"]
  ∧ findall LOG_ENTRY_FORMAT trace_log ≠ spec_entries trace_log.
Proof. split_and!; [reflexivity | reflexivity | by vm_compute]. Qed.

Lemma entries_are_marked_lines_witness :
  findall LOG_ENTRY_FORMAT trace_log = filter has_marker (tail (lines trace_log))
  ∧ Forall (fun entry => str_exists (Ascii.eqb newline) entry = false)
      (findall LOG_ENTRY_FORMAT trace_log).
Proof. apply (entries_are_marked_lines trace_log). vm_compute. reflexivity. Defined.

(** C9. The first physical line of a log is never an entry, even when
    it starts with the marker: the entries and the events of the log are
    those of the log without its first line, and a log of one line gives
    no event. *)
Theorem first_entry_dropped (log : string) :
  has_marker log = true →
  findall LOG_ENTRY_FORMAT log = findall LOG_ENTRY_FORMAT (after_line log)
  ∧ (∀ log_date, log_events log log_date = log_events (after_line log) log_date)
  ∧ (after_line log = "" → ∀ log_date, log_events log log_date = Ok []).
Proof.
  intros _.
  assert (E : findall LOG_ENTRY_FORMAT log = findall LOG_ENTRY_FORMAT (after_line log)).
  { rewrite !findall_lines. by rewrite <- lines_after. }
  split_and!; [done | |].
  - intros log_date. unfold log_events. by rewrite E.
  - intros Ha log_date. unfold log_events. by rewrite E, Ha.
Qed.

Lemma first_entry_dropped_witness :
  has_marker first_line_log = true
  ∧ is_Some (match_ JOIN_FORMAT first_line_log)
  ∧ ∀ log_date, log_events first_line_log log_date = Ok [].
Proof.
  split_and!; [reflexivity | eexists; vm_compute; reflexivity |].
  apply (first_entry_dropped first_line_log); reflexivity.
Defined.

(** ** The classifier on concrete entries *)

(** C1, as the specification has it, fails on a join line with hour 25:
    the classification raises, and the run ends with the exception and
    without the event of the entry that follows. *)
Lemma malformed_time_not_skipped :
  is_Some (match_ JOIN_FORMAT bad_clock_entry)
  ∧ classify bad_clock_entry (Date 2024 3 5) = Raise ValueError
  ∧ classify bad_clock_entry (Date 2024 3 5) ≠ Ok None
  ∧ main bad_clock_world ∅ = (Raise ValueError, ∅).
Proof.
  split_and!; [eexists; vm_compute; reflexivity | by vm_compute.. ].
Qed.

Lemma malformed_time_raises_witness :
  classify bad_clock_entry (Date 2024 3 5) =
    (if dropped_by_denylist bad_clock_entry then Ok None else Raise ValueError)
  ∧ (dropped_by_denylist bad_clock_entry = false →
     ∀ before after,
       collect (before ++ bad_clock_entry :: after) (Date 2024 3 5)
       = Raise ValueError).
Proof.
  eapply (malformed_time_raises bad_clock_entry (Date 2024 3 5) JOIN_FORMAT);
    [constructor | vm_compute; reflexivity | vm_compute; reflexivity].
Defined.

(** C4, as the specification has it, fails on a join line of a player
    whose name is a word of [NOT_PLAYERS]: the death pattern matches the
    line and captures that word, and the line is classified as a join. *)
Lemma denylisted_word_joins :
  match_ DEATH_FORMAT you_joined
  = Some ([("cause", "joined the game"); ("player", "You"); ("time", "14:22:01")], "")
  ∧ "You" ∈ NOT_PLAYERS
  ∧ classify you_joined (Date 2024 3 5)
    = Ok (Some (PlayerJoinLeave (combine (Date 2024 3 5) (Time 14 22 1)) "You" "join"))
  ∧ classify you_joined (Date 2024 3 5) ≠ Ok None.
Proof.
  split_and!; [by vm_compute | | by vm_compute..].
  apply (bool_decide_unpack _). by vm_compute.
Qed.

Lemma denylist_drops_witness : classify loading_entry (Date 2024 3 5) = Ok None.
Proof.
  eapply (denylist_drops loading_entry (Date 2024 3 5));
    [vm_compute; reflexivity.. | ].
  apply (bool_decide_unpack _). vm_compute. exact I.
Defined.

Lemma chat_is_not_death_witness :
  match_ DEATH_FORMAT chat_entry = None
  ∧ ∀ log_date t player cause,
      classify chat_entry log_date ≠ Ok (Some (PlayerDeath t player cause)).
Proof.
  eapply (chat_is_not_death chat_entry). vm_compute. reflexivity.
Defined.

Lemma join_line_classified_witness :
  classify ("[" +:+ "14:22:01" +:+ SERVER_TAG +:+ "Steve" +:+ " joined the game")
    (Date 2024 3 5)
  = Ok (Some (PlayerJoinLeave (combine (Date 2024 3 5) (Time 14 22 1)) "Steve" "join")).
Proof.
  apply (join_line_classified "14:22:01" "Steve" (Time 14 22 1) (Date 2024 3 5));
    [reflexivity | reflexivity | simpl; lia].
Defined.

(** * The export *)

Section ExportFiles.

Implicit Types fs g : gmap string node.

Lemma write_file_other path text fs r fs1 k :
  write_file path text fs = (r, fs1) → k ≠ path → fs1 !! k = fs !! k.
Proof.
  unfold write_file. intros H Hk.
  repeat case_match; simplify_eq; try done; by rewrite lookup_insert_ne.
Qed.

(** The loop over the files leaves every other path as it is. *)
Lemma write_csvs_other files es : ∀ fs r fs1 k,
  write_csvs files es fs = (r, fs1) → k ∉ paths files → fs1 !! k = fs !! k.
Proof.
  induction files as [|[f ty] rest IH]; intros fs r fs1 k H Hk; cbn [write_csvs] in H.
  - by simplify_eq.
  - unfold paths in Hk. cbn [fmap list_fmap fst] in Hk.
    apply not_elem_of_cons in Hk as [Hk1 Hk2].
    destruct (write_file _ _ fs) as [[[]|e] fs'] eqn:E.
    + rewrite (IH _ _ _ _ H Hk2). eauto using write_file_other.
    + simplify_eq. eauto using write_file_other.
Qed.

(** Running the loop again on files that hold what the first run wrote
    gives the outcome of the first run and changes nothing. *)
Lemma write_csvs_again files es : ∀ fs r fs1 g,
  write_csvs files es fs = (r, fs1) →
  NoDup (paths files) → "output" ∉ paths files →
  g !! "output" = fs !! "output" →
  (∀ p, p ∈ paths files → g !! p = fs1 !! p) →
  write_csvs files es g = (r, g).
Proof.
  induction files as [|[f ty] rest IH]; intros fs r fs1 g H Hnd Hout Hg Hp;
    cbn [write_csvs] in *.
  - by simplify_eq.
  - unfold paths in Hnd, Hout, Hp. cbn [fmap list_fmap fst] in Hnd, Hout, Hp.
    fold (paths rest) in Hnd, Hout, Hp.
    apply NoDup_cons in Hnd as [Hf Hnd].
    apply not_elem_of_cons in Hout as [Hout1 Hout2].
    pose proof (Hp _ (list_elem_of_here _ _)) as Hpf.
    destruct (write_file _ _ fs) as [[[]|e] fs'] eqn:E.
    + rewrite (write_csvs_other _ _ _ _ _ _ H Hf) in Hpf.
      unfold write_file in E |- *. rewrite Hg.
      destruct (fs !! "output") as [[|?]|] eqn:Eo; try done.
      assert (fs' = <[output_path f := File (csv_text ty es)]> fs) as ->
        by (by destruct (fs !! output_path f) as [[|?]|]; simplify_eq).
      rewrite lookup_insert_eq in Hpf. rewrite Hpf.
      rewrite (insert_id g) by done.
      apply (IH _ _ _ _ H); try done.
      * rewrite lookup_insert_ne by congruence. congruence.
      * intros p Hin. apply Hp. by right.
    + simplify_eq. unfold write_file in E |- *. rewrite Hg, Hpf.
      repeat case_match; by simplify_eq.
Qed.

Lemma ensure_output_exists fs : is_Some (ensure_output fs !! "output").
Proof.
  unfold ensure_output. destruct (fs !! "output") eqn:E; [by rewrite E|].
  by rewrite lookup_insert_eq.
Qed.

Lemma ensure_output_again fs : is_Some (fs !! "output") → ensure_output fs = fs.
Proof. unfold ensure_output. by intros [x ->]. Qed.

Lemma csv_paths_distinct : NoDup (paths CSV_FILES) ∧ "output" ∉ paths CSV_FILES.
Proof. split; apply (bool_decide_unpack _); by vm_compute. Qed.

Lemma export_again es fs : export es (export es fs).2 = export es fs.
Proof.
  unfold export.
  destruct (write_csvs CSV_FILES es (ensure_output fs)) as [r fs1] eqn:E.
  cbn [snd].
  destruct csv_paths_distinct as [Hnd Hout].
  assert (Ho : fs1 !! "output" = ensure_output fs !! "output")
    by eauto using write_csvs_other.
  rewrite ensure_output_again by (rewrite Ho; apply ensure_output_exists).
  by apply (write_csvs_again _ _ _ _ _ _ E).
Qed.

End ExportFiles.

(** C8. Exporting an event stream a second time gives the outcome of the
    first export and leaves every file as the first export left it. *)
Theorem export_idempotent (event_stream : list event) (fs : gmap string node) :
  export event_stream (export event_stream fs).2 = export event_stream fs
  ∧ (export event_stream (export event_stream fs).2).2 = (export event_stream fs).2.
Proof. split; [apply export_again | by rewrite export_again]. Qed.

(** * The run *)

Section Run.

Implicit Types fs : gmap string node.

Lemma no_log_files (names : list string) :
  (∀ n, n ∈ names → fullmatch LOG_FILENAME_FORMAT n = None) →
  sorted_log_files names = [].
Proof.
  intros H. unfold sorted_log_files.
  assert (filter (fun x => is_Some (fullmatch LOG_FILENAME_FORMAT x)) names = []) as ->;
    [|done].
  induction names as [|n names IH]; [done|].
  rewrite filter_cons. destruct (decide _) as [[m Hm]|_].
  - rewrite H in Hm; [done | by left].
  - apply IH. intros n' Hn'. apply H. by right.
Qed.

End Run.

(** C10. When no name in the log directory has the shape of a log file
    name, the run ends without an event and leaves every file as it was:
    nothing is created and nothing is written. *)
Theorem no_sources_no_output (w : world) (fs : gmap string node) (names : list string) :
  os_listdir w (LOG_DIRECTORY w) = Ok names →
  (∀ n, n ∈ names → fullmatch LOG_FILENAME_FORMAT n = None) →
  main w fs = (Ok [], fs).
Proof.
  intros Hl Hn. unfold main. rewrite Hl. by rewrite no_log_files.
Qed.

Lemma no_sources_no_output_witness : main empty_cwd_world ∅ = (Ok [], ∅).
Proof.
  apply (no_sources_no_output empty_cwd_world ∅ ["notes.txt"]); [reflexivity|].
  intros n Hn. apply list_elem_of_singleton in Hn as ->. reflexivity.
Defined.

(** * The order of the log files *)

Section FileOrder.

Local Open Scope Z_scope.

Lemma run_exactly_inv {A} cs n : ∀ s gs (k : string → groups → option A) x,
  run (exactly cs n) s gs k = Some x →
  ∃ a s', s = a +:+ s' ∧ String.length a = n
          ∧ str_forall (mem cs) a = true ∧ k s' gs = Some x.
Proof.
  induction n as [|n IH]; intros s gs k x H; unfold exactly in H; cbn [run] in H.
  - rewrite rep_zero in H. by exists "", s.
  - destruct s as [|c s]; [done|].
    cbn [rep may_repeat Nat.pred fmap option_fmap option_map] in H.
    destruct (mem cs c) eqn:Ec; [|done]. cbn [andb] in H.
    change (rep cs n (Some n) s (fun s' => k s' gs))
      with (run (exactly cs n) s gs k) in H.
    destruct (run (exactly cs n) s gs k) as [y|] eqn:E; [|done].
    injection H as ->. apply IH in E as (a & s' & -> & <- & Ha & Hk).
    exists (String c a), s'. cbn [str_forall]. by rewrite Ec, Ha.
Qed.






End FileOrder.

Section Stream.

Implicit Types fs : gmap string node.


Lemma sorted_log_files_sorted (names : list string) :
  StronglySorted String.le (sorted_log_files names).
Proof. apply StronglySorted_merge_sort; apply _. Qed.

Lemma sorted_log_files_elem (names : list string) (n : string) :
  n ∈ names → is_Some (fullmatch LOG_FILENAME_FORMAT n) →
  n ∈ sorted_log_files names.
Proof.
  intros Hn Hm. unfold sorted_log_files.
  rewrite merge_sort_Permutation. by apply list_elem_of_filter.
Qed.

(** A run of the loop that ends without an exception read every file,
    and its event stream is the events of the files, file after file. *)
Lemma process_ok (w : world) (log_files : list string) :
  ∀ event_stream fs es fs',
    process w log_files event_stream fs = (Ok es, fs') →
    ∃ evs, Forall2 (fun f ev => read_events w f = Ok ev) log_files evs
           ∧ es = event_stream ++ concat evs.
Proof.
  induction log_files as [|f rest IH]; intros es0 fs es fs' H; cbn [process] in H.
  - injection H as <- <-. exists []. split; [constructor | by rewrite app_nil_r].
  - destruct (read_events w f) as [ev|e] eqn:E; [|done].
    destruct (export (es0 ++ ev) fs) as [[[]|e] fs1]; [|done].
    apply IH in H as (evs & Hall & ->).
    exists (ev :: evs). split; [by constructor|].
    cbn [concat]. by rewrite <- app_assoc.
Qed.

End Stream.

Section NoDirectory.

Implicit Types fs : gmap string node.

Lemma date_fromisoformat_raises (s : string) (e : exn) :
  date_fromisoformat s = Raise e → e = ValueError.
Proof.
  unfold date_fromisoformat, make_date. intros H.
  repeat case_match; by simplify_eq.
Qed.

(** Without the setting no log file is opened: the date of its name is
    not a date, or the path of the file cannot be built. *)
Lemma read_events_unset (w : world) (filename : string) :
  LOG_DIRECTORY w = None →
  is_Some (fullmatch LOG_FILENAME_FORMAT filename) →
  read_events w filename
  = Raise (match source_date filename with
           | Some _ => TypeError
           | None => ValueError
           end).
Proof.
  intros Hd [m Hm]. unfold read_events, source_date. rewrite Hm, Hd.
  destruct (date_fromisoformat (group m "date")) as [d|e] eqn:E; cbn [rbind read_log].
  - done.
  - by rewrite (date_fromisoformat_raises _ _ E).
Qed.

(** The first of the sorted log files is the least of the names of the
    listing that have the shape of a log file name. *)
Lemma sorted_log_files_first (names : list string) (first : string) (rest : list string) :
  sorted_log_files names = first :: rest →
  first ∈ names ∧ is_Some (fullmatch LOG_FILENAME_FORMAT first)
  ∧ ∀ n, n ∈ names → is_Some (fullmatch LOG_FILENAME_FORMAT n) → String.le first n.
Proof.
  intros Hs.
  assert (Hin : first ∈ sorted_log_files names) by (rewrite Hs; by left).
  unfold sorted_log_files in Hin. rewrite merge_sort_Permutation in Hin.
  apply list_elem_of_filter in Hin as [Hm Hin].
  split_and!; [done..|].
  intros n Hn Hnm.
  pose proof (sorted_log_files_elem names n Hn Hnm) as Hn'.
  pose proof (sorted_log_files_sorted names) as Hsorted.
  rewrite Hs in Hn', Hsorted.
  apply StronglySorted_cons in Hsorted as [Hle _].
  apply elem_of_cons in Hn' as [->|Hn']; [done|].
  by apply (proj1 (list.Forall_forall _ _) Hle).
Qed.

Lemma some_log_file (names : list string) (n : string) :
  n ∈ names → is_Some (fullmatch LOG_FILENAME_FORMAT n) →
  ∃ first rest, sorted_log_files names = first :: rest.
Proof.
  intros Hn Hm. pose proof (sorted_log_files_elem names n Hn Hm) as Hin.
  destruct (sorted_log_files names) as [|first rest]; [by apply elem_of_nil in Hin|].
  by exists first, rest.
Qed.

End NoDirectory.

(** C3. When the log directory is unset or is not a directory, the run
    writes nothing and has no event. A path that names nothing, or a
    regular file, makes the listing raise at once. Without the setting
    the current directory is listed; with file names of ASCII text, the
    run ends without an error when no name has the shape of a log file
    name, and otherwise raises at the first log file, before it opens
    it: [ValueError] when the date of the name is not a date, and else
    the [TypeError] of [os.path.join(None, filename)]. *)
Theorem unset_or_missing_directory (w : world) (fs : gmap string node) :
  (LOG_DIRECTORY w = None
   ∨ ∃ d, LOG_DIRECTORY w = Some d
          ∧ (disk w !! d = None ∨ disk w !! d = Some RegularFile)) →
  (main w fs).2 = fs
  ∧ (∀ event_stream, (main w fs).1 = Ok event_stream → event_stream = [])
  ∧ (∀ d, LOG_DIRECTORY w = Some d →
       main w fs = (Raise (match disk w !! d with
                           | Some _ => NotADirectoryError
                           | None => FileNotFoundError
                           end), fs))
  ∧ (LOG_DIRECTORY w = None →
     ∀ names, os_listdir w None = Ok names → Forall ascii_text names →
       ((∀ n, n ∈ names → fullmatch LOG_FILENAME_FORMAT n = None) →
        main w fs = (Ok [], fs))
       ∧ (∀ n, n ∈ names → is_Some (fullmatch LOG_FILENAME_FORMAT n) →
          ∃ first,
            first ∈ names ∧ is_Some (fullmatch LOG_FILENAME_FORMAT first)
            ∧ (∀ n', n' ∈ names → is_Some (fullmatch LOG_FILENAME_FORMAT n') →
                     String.le first n')
            ∧ main w fs = (Raise (match source_date first with
                                  | Some _ => TypeError
                                  | None => ValueError
                                  end), fs))).
Proof.
  intros [Hd|(d & Hd & Hm)].
  - assert (Hrun : ∀ names, os_listdir w None = Ok names →
              main w fs
              = match sorted_log_files names with
                | [] => (Ok [], fs)
                | first :: _ =>
                    (Raise (match source_date first with
                            | Some _ => TypeError
                            | None => ValueError
                            end), fs)
                end).
    { intros names Hl. unfold main. rewrite Hd, Hl.
      destruct (sorted_log_files names) as [|first rest] eqn:Es; [done|].
      apply sorted_log_files_first in Es as (_ & Hfm & _).
      cbn [process]. by rewrite (read_events_unset w first Hd Hfm). }
    split_and!.
    + destruct (os_listdir w None) as [names|e] eqn:El.
      * rewrite (Hrun names eq_refl). by destruct (sorted_log_files names).
      * unfold main. by rewrite Hd, El.
    + intros es. destruct (os_listdir w None) as [names|e] eqn:El.
      * rewrite (Hrun names eq_refl).
        destruct (sorted_log_files names); [by intros [= <-] | done].
      * unfold main. by rewrite Hd, El.
    + intros d Hd'. congruence.
    + intros _ names Hl _. rewrite (Hrun names Hl). split.
      * intros Hn. by rewrite no_log_files.
      * intros n Hn Hnm.
        destruct (some_log_file names n Hn Hnm) as (first & rest & Es).
        rewrite Es. exists first.
        apply sorted_log_files_first in Es as (? & ? & ?). by split_and!.
  - assert (Hrun : main w fs
              = (Raise (match disk w !! d with
                        | Some _ => NotADirectoryError
                        | None => FileNotFoundError
                        end), fs)).
    { unfold main, os_listdir. rewrite Hd. cbn [default from_option id].
      by destruct Hm as [-> | ->]. }
    split_and!.
    + by rewrite Hrun.
    + intros es. by rewrite Hrun.
    + intros d' Hd'. rewrite Hd in Hd'. by injection Hd' as <-.
    + intros Hd'. congruence.
Qed.

(** C3, as the specification has it, fails when the setting is unset
    and the current directory has no log file: the run ends without an
    error. *)
Lemma unset_directory_run_succeeds :
  LOG_DIRECTORY empty_cwd_world = None
  ∧ main empty_cwd_world ∅ = (Ok [], ∅).
Proof. split; by vm_compute. Qed.

Lemma unset_or_missing_directory_witness :
  main unset_world ∅ = (Raise TypeError, ∅)
  ∧ main missing_directory_world ∅ = (Raise FileNotFoundError, ∅)
  ∧ main regular_file_world ∅ = (Raise NotADirectoryError, ∅).
Proof.
  split_and!.
  - destruct (unset_or_missing_directory unset_world ∅) as (_ & _ & _ & H);
      [left; reflexivity|].
    destruct (H eq_refl ["notes.txt"; "2024-01-01-1.log.gz"]) as [_ Hfirst];
      [reflexivity | repeat constructor |].
    destruct (Hfirst "2024-01-01-1.log.gz") as (first & Hin & Hm & _ & Hmain);
      [right; left | eexists; vm_compute; reflexivity |].
    rewrite Hmain.
    apply elem_of_cons in Hin as [-> | Hin].
    + destruct Hm as [m Hm]. vm_compute in Hm. discriminate Hm.
    + apply list_elem_of_singleton in Hin as ->. vm_compute. reflexivity.
  - destruct (unset_or_missing_directory missing_directory_world ∅)
      as (_ & _ & H & _).
    + right. exists "logs". split; [reflexivity | left; reflexivity].
    + apply (H "logs"). reflexivity.
  - destruct (unset_or_missing_directory regular_file_world ∅)
      as (_ & _ & H & _).
    + right. exists "logs". split; [reflexivity | right; reflexivity].
    + apply (H "logs"). reflexivity.
Defined.



(** * Further properties of the classifier *)

Section Tokens.

(** Whatever a repetition returns, its continuation returned it after a
    run of characters of the set, of an allowed length. *)
Lemma rep_inv_prefix {A} cs s : ∀ lo hi (k : string → option A) a,
  rep cs lo hi s k = Some a →
  ∃ pre s', s = pre +:+ s' ∧ str_forall (mem cs) pre = true
            ∧ (lo <= String.length pre)%nat
            ∧ (∀ h, hi = Some h → (String.length pre <= h)%nat)
            ∧ k s' = Some a.
Proof.
  induction s as [|c s IH]; intros lo hi k a H; cbn [rep] in H.
  - destruct lo; [|done]. exists "", "". split_and!; try done.
    intros h _. cbn [String.length]. lia.
  - assert (Hstop : match lo with O => k (String c s) | S _ => None end = Some a →
              ∃ pre s', String c s = pre +:+ s' ∧ str_forall (mem cs) pre = true
                ∧ (lo <= String.length pre)%nat
                ∧ (∀ h, hi = Some h → (String.length pre <= h)%nat)
                ∧ k s' = Some a).
    { destruct lo; [|done]. intros Hk. exists "", (String c s).
      split_and!; try done. intros h _. cbn [String.length]. lia. }
    destruct (mem cs c) eqn:Ec; cbn [andb] in H; [|by apply Hstop].
    destruct (may_repeat hi) eqn:Eh; [|by apply Hstop].
    destruct (rep cs (Nat.pred lo) (Nat.pred <$> hi) s k) as [x|] eqn:E;
      [|by apply Hstop].
    injection H as ->.
    apply IH in E as (pre & s' & -> & Hpre & Hlo & Hhi & Hk).
    exists (String c pre), s'. cbn [String.append str_forall String.length].
    rewrite Ec, Hpre. split_and!; try done; [lia|].
    intros h ->. destruct h as [|h]; [done|].
    specialize (Hhi h eq_refl). lia.
Qed.

(** A match of the player group captures 1 to 16 word characters. *)
Lemma run_player_inv {A} s gs (k : string → groups → option A) x :
  run PLAYER s gs k = Some x →
  ∃ p s', s = p +:+ s' ∧ str_forall is_word p = true
          ∧ (1 <= String.length p <= 16)%nat
          ∧ k s' (("player", p) :: gs) = Some x.
Proof.
  unfold PLAYER. rewrite run_grp_unfold. cbn [run]. intros H.
  apply rep_inv_prefix in H as (p & s' & -> & Hp & Hlo & Hhi & H).
  rewrite str_take_app in H. exists p, s'.
  split_and!; try done. by apply Hhi.
Qed.

(** Two ways to cut a string into a word and a rest that does not go on
    with a word character are one way. *)
Lemma word_cut_unique (a b r t : string) :
  str_forall is_word a = true → str_forall is_word b = true →
  stops Word r = true → stops Word t = true →
  a +:+ r = b +:+ t → a = b ∧ r = t.
Proof.
  revert b. induction a as [|c a IH]; intros b Ha Hb Hr Ht E.
  - destruct b as [|d b]; [done|]. cbn [String.append] in E. subst r.
    cbn [str_forall] in Hb. apply andb_true_iff in Hb as [Hd _].
    cbn [stops mem] in Hr. by rewrite Hd in Hr.
  - cbn [str_forall] in Ha. apply andb_true_iff in Ha as [Hc Ha].
    destruct b as [|d b]; cbn [String.append] in E.
    + subst t. cbn [stops mem] in Ht. by rewrite Hc in Ht.
    + injection E as -> E. cbn [str_forall] in Hb.
      apply andb_true_iff in Hb as [_ Hb].
      destruct (IH b Ha Hb Hr Ht E) as [-> ->]. done.
Qed.

End Tokens.

Section Lines.

(** On a line with a time of day, an entry pattern goes on with its
    tail right after the server tag. *)
Lemma match_line (clock body : string) (t : time) (tail : regex) :
  time_fromisoformat clock = Ok t →
  match_ (Seq ENTRY_HEAD tail) ("[" +:+ clock +:+ SERVER_TAG +:+ body)
  = run tail body [("time", clock)] (fun s gs => Some (gs, s)).
Proof.
  intros Ht. unfold match_. rewrite run_seq. by rewrite (run_head clock t).
Qed.

Lemma seq_lit_starts {A} p tail s gs (k : string → groups → option A) x :
  run (Seq (Lit p) tail) s gs k = Some x → ∃ s', s = p +:+ s'.
Proof.
  rewrite run_seq. intros H. apply run_lit_inv in H as (s' & -> & _). by exists s'.
Qed.

Lemma lit_starts {A} p s gs (k : string → groups → option A) x :
  run (Lit p) s gs k = Some x → ∃ s', s = p +:+ s'.
Proof. intros H. apply run_lit_inv in H as (s' & -> & _). by exists s'. Qed.

(** A pattern of a player name and a tail that starts with the text
    [p] does not match where something else follows the name. *)
Lemma no_match_after_player (clock player rest p : string) (t : time) (r : regex) :
  time_fromisoformat clock = Ok t →
  str_forall is_word player = true →
  stops Word rest = true → stops Word p = true → p ≠ "" →
  (∀ s gs k (x : groups * string), run r s gs k = Some x → ∃ s', s = p +:+ s') →
  strip p rest = None →
  match_ (Seq ENTRY_HEAD (Seq PLAYER r))
    ("[" +:+ clock +:+ SERVER_TAG +:+ player +:+ rest) = None.
Proof.
  intros Ht Hw Hr Hp Hne Hstart Hstrip.
  rewrite (match_line clock _ t) by done.
  destruct (run _ _ _ _) as [x|] eqn:E; [exfalso|done].
  rewrite run_seq in E.
  apply run_player_inv in E as (q & s' & E & Hq & _ & H).
  apply Hstart in H as (rest' & ->).
  apply word_cut_unique in E as [_ ->]; try done.
  - by rewrite strip_app in Hstrip.
  - by destruct p.
Qed.

(** Where no word character comes first, no pattern that starts with a
    player name matches. *)
Lemma no_player_no_match (clock body : string) (t : time) (r : regex) :
  time_fromisoformat clock = Ok t → stops Word body = true →
  match_ (Seq ENTRY_HEAD (Seq PLAYER r))
    ("[" +:+ clock +:+ SERVER_TAG +:+ body) = None.
Proof.
  intros Ht Hb. rewrite (match_line clock _ t) by done.
  destruct (run _ _ _ _) as [x|] eqn:E; [exfalso|done].
  rewrite run_seq in E.
  apply run_player_inv in E as (q & s' & -> & Hq & [Hlen _] & _).
  destruct q as [|c q]; [cbn [String.length] in Hlen; lia|].
  cbn [str_forall] in Hq. apply andb_true_iff in Hq as [Hc _].
  cbn [String.append stops mem] in Hb. by rewrite Hc in Hb.
Qed.

(** A group around a pattern that takes [a] and then succeeds captures
    [a]. *)
Lemma run_grp_some {A} name r a rest gs (k : string → groups → option A) x :
  (∀ k' : string → groups → option A,
     k' rest gs = Some x → run r (a +:+ rest) gs k' = Some x) →
  k rest ((name, a) :: gs) = Some x →
  run (Grp name r) (a +:+ rest) gs k = Some x.
Proof.
  intros H Hk. rewrite run_grp_unfold. apply H. by rewrite str_take_app.
Qed.

(** A group around a greedy run of any characters, before the end of
    the pattern, captures the rest of the physical line. *)
Lemma run_dot_group {A} name s gs (k : string → groups → option A) :
  (∀ s' gs', is_Some (k s' gs')) →
  run (Grp name (Rep Dot 0 None)) s gs k
  = k (after_line s) ((name, first_line s) :: gs).
Proof.
  intros Hk. rewrite run_grp_unfold. cbn [run].
  rewrite rep_dot_all by eauto. by rewrite take_first_line.
Qed.

End Lines.

(** X1. A leave line with a time of day and a player name of 1 to 16
    word characters is classified as a leave of that player, stamped
    with the date of the log and the time of the line. *)
Theorem leave_line_classified (clock player : string) (t : time) (log_date : date) :
  time_fromisoformat clock = Ok t →
  str_forall is_word player = true →
  (1 <= String.length player <= 16)%nat →
  classify ("[" +:+ clock +:+ SERVER_TAG +:+ player +:+ " left the game") log_date
  = Ok (Some (PlayerJoinLeave (combine log_date t) player "leave")).
Proof.
  intros Ht Hw Hlen.
  assert (E1 : match_ JOIN_FORMAT
            ("[" +:+ clock +:+ SERVER_TAG +:+ player +:+ " left the game") = None).
  { apply (no_match_after_player clock player _ " joined the game" t); try done.
    intros s gs k x. apply lit_starts. }
  assert (E2 : match_ LEAVE_FORMAT
            ("[" +:+ clock +:+ SERVER_TAG +:+ player +:+ " left the game")
          = Some ([("player", player); ("time", clock)], "")).
  { unfold LEAVE_FORMAT. cbn [cat]. rewrite (match_line clock _ t) by done.
    rewrite run_seq. by apply run_player. }
  unfold classify. rewrite E1, E2. unfold stamp, group. cbn [lookup_group].
  simpl default. by rewrite Ht.
Qed.

Lemma leave_line_classified_witness :
  classify ("[" +:+ "23:59:59" +:+ SERVER_TAG +:+ "Alex_01" +:+ " left the game")
    (Date 2024 3 5)
  = Ok (Some (PlayerJoinLeave (combine (Date 2024 3 5) (Time 23 59 59))
                "Alex_01" "leave")).
Proof.
  apply (leave_line_classified "23:59:59" "Alex_01" (Time 23 59 59) (Date 2024 3 5));
    [reflexivity | reflexivity | simpl; lia].
Defined.

Section Bodies.

Lemma no_bracket (adv : string) :
  str_exists (Ascii.eqb "]") adv = false →
  str_forall (mem (NoneOf ["]"%char])) adv = true.
Proof.
  induction adv as [|c adv IH]; cbn [str_exists str_forall mem char_in existsb]; [done|].
  intros [Hc Ha]%orb_false_iff. rewrite Ascii.eqb_sym in Hc.
  rewrite Hc. cbn [orb negb andb]. by apply IH.
Qed.

(** The group of the wording of an advancement takes each of the three
    wordings. *)
Lemma run_advancement_type {A} kind rest gs (k : string → groups → option A) x :
  kind ∈ ADVANCEMENT_TYPES →
  k rest gs = Some x →
  run (Alt (Lit "made the advancement")
         (Alt (Lit "completed the challenge") (Lit "reached the goal")))
    (kind +:+ rest) gs k = Some x.
Proof.
  intros Hk Hx. unfold ADVANCEMENT_TYPES in Hk.
  repeat (apply elem_of_cons in Hk as [->|Hk]); [| | |by apply elem_of_nil in Hk].
  - cbn [run]. by rewrite strip_app, Hx.
  - cbn [run].
    replace (strip "made the advancement" ("completed the challenge" +:+ rest))
      with (@None string) by reflexivity.
    by rewrite strip_app, Hx.
  - cbn [run].
    replace (strip "made the advancement" ("reached the goal" +:+ rest))
      with (@None string) by reflexivity.
    replace (strip "completed the challenge" ("reached the goal" +:+ rest))
      with (@None string) by reflexivity.
    by rewrite strip_app, Hx.
Qed.

End Bodies.

(** X2. An advancement line, in each of its three wordings, with a time
    of day, a player name of 1 to 16 word characters and a title without
    a closing bracket, is classified as an advancement of that player
    with that title. The wording is not kept. *)
Theorem advancement_line_classified (clock player kind adv : string)
    (t : time) (log_date : date) :
  time_fromisoformat clock = Ok t →
  str_forall is_word player = true →
  (1 <= String.length player <= 16)%nat →
  kind ∈ ADVANCEMENT_TYPES →
  adv ≠ "" → str_exists (Ascii.eqb "]") adv = false →
  classify ("[" +:+ clock +:+ SERVER_TAG +:+ player +:+ " has " +:+ kind
            +:+ " [" +:+ adv +:+ "]") log_date
  = Ok (Some (PlayerAdvancement (combine log_date t) player adv)).
Proof.
  intros Ht Hw Hlen Hkind Hne Hadv.
  set (rest := " has " +:+ kind +:+ " [" +:+ adv +:+ "]").
  assert (E1 : match_ JOIN_FORMAT
                 ("[" +:+ clock +:+ SERVER_TAG +:+ player +:+ rest) = None).
  { apply (no_match_after_player clock player _ " joined the game" t); try done.
    intros s gs k x. apply lit_starts. }
  assert (E2 : match_ LEAVE_FORMAT
                 ("[" +:+ clock +:+ SERVER_TAG +:+ player +:+ rest) = None).
  { apply (no_match_after_player clock player _ " left the game" t); try done.
    intros s gs k x. apply lit_starts. }
  assert (E3 : match_ ADVANCEMENT_FORMAT
                 ("[" +:+ clock +:+ SERVER_TAG +:+ player +:+ rest)
               = Some ([("advancement", adv); ("type", kind);
                        ("player", player); ("time", clock)], "")).
  { unfold ADVANCEMENT_FORMAT. cbn [cat]. rewrite (match_line clock _ t) by done.
    rewrite run_seq. apply run_player; try done. unfold rest.
    rewrite run_seq, run_lit, run_seq.
    apply run_grp_some; [intros k'; by apply run_advancement_type|].
    rewrite run_seq, run_lit, run_seq.
    apply run_grp_some.
    - intros k' Hk'. cbn [run]. apply rep_greedy; try done.
      + by apply no_bracket.
      + destruct adv; [done|]. cbn [String.length]. lia.
    - reflexivity. }
  unfold classify. rewrite E1, E2, E3. unfold stamp, group. cbn [lookup_group].
  simpl default. by rewrite Ht.
Qed.

Lemma advancement_line_classified_witness :
  classify ("[" +:+ "14:22:01" +:+ SERVER_TAG +:+ "Steve" +:+ " has "
            +:+ "completed the challenge" +:+ " [" +:+ "Stone Age" +:+ "]")
    (Date 2024 3 5)
  = Ok (Some (PlayerAdvancement (combine (Date 2024 3 5) (Time 14 22 1))
                "Steve" "Stone Age")).
Proof.
  apply (advancement_line_classified "14:22:01" "Steve" "completed the challenge"
           "Stone Age" (Time 14 22 1) (Date 2024 3 5));
    [reflexivity | reflexivity | simpl; lia | | discriminate | reflexivity].
  apply (bool_decide_unpack _). vm_compute. exact I.
Defined.

(** X3. A chat line with a time of day and a player name of 1 to 16
    word characters in angle brackets is classified as a message of that
    player; the message is the text after the bracket and the space, up
    to the end of the physical line. *)
Theorem chat_line_classified (clock player message : string)
    (t : time) (log_date : date) :
  time_fromisoformat clock = Ok t →
  str_forall is_word player = true →
  (1 <= String.length player <= 16)%nat →
  classify ("[" +:+ clock +:+ SERVER_TAG +:+ "<" +:+ player +:+ "> " +:+ message)
    log_date
  = Ok (Some (PlayerMessage (combine log_date t) player (first_line message))).
Proof.
  intros Ht Hw Hlen.
  set (body := "<" +:+ player +:+ "> " +:+ message).
  assert (Hno : ∀ r, match_ (Seq ENTRY_HEAD (Seq PLAYER r))
                       ("[" +:+ clock +:+ SERVER_TAG +:+ body) = None).
  { intros r. by apply (no_player_no_match clock body t). }
  assert (E5 : match_ MESSAGE_FORMAT ("[" +:+ clock +:+ SERVER_TAG +:+ body)
               = Some ([("message", first_line message); ("player", player);
                        ("time", clock)], after_line message)).
  { unfold MESSAGE_FORMAT, body. cbn [cat]. rewrite (match_line clock _ t) by done.
    rewrite run_seq, run_lit, run_seq. apply run_player; try done.
    rewrite run_seq, run_lit. by rewrite run_dot_group by eauto. }
  unfold classify, JOIN_FORMAT, LEAVE_FORMAT, ADVANCEMENT_FORMAT, DEATH_FORMAT.
  cbn [cat]. rewrite !Hno, E5. unfold stamp, group. cbn [lookup_group].
  simpl default. by rewrite Ht.
Qed.

Lemma chat_line_classified_witness :
  classify ("[" +:+ "14:22:01" +:+ SERVER_TAG +:+ "<" +:+ "Steve" +:+ "> "
            +:+ "hello world") (Date 2024 3 5)
  = Ok (Some (PlayerMessage (combine (Date 2024 3 5) (Time 14 22 1))
                "Steve" (first_line "hello world"))).
Proof.
  apply (chat_line_classified "14:22:01" "Steve" "hello world"
           (Time 14 22 1) (Date 2024 3 5));
    [reflexivity | reflexivity | simpl; lia].
Defined.

(** X4. A line of a word of 1 to 16 word characters, a space and a text
    that does not start as a join, a leave or an advancement falls to the
    death pattern: it gives no event when the word is in [NOT_PLAYERS],
    and otherwise a death of the player of that name, whose cause is the
    text up to the end of the physical line. *)
Theorem death_line_classified (clock player cause : string)
    (t : time) (log_date : date) :
  time_fromisoformat clock = Ok t →
  str_forall is_word player = true →
  (1 <= String.length player <= 16)%nat →
  strip "joined the game" cause = None →
  strip "left the game" cause = None →
  strip "has " cause = None →
  classify ("[" +:+ clock +:+ SERVER_TAG +:+ player +:+ " " +:+ cause) log_date
  = if bool_decide (player ∈ NOT_PLAYERS) then Ok None
    else Ok (Some (PlayerDeath (combine log_date t) player (first_line cause))).
Proof.
  intros Ht Hw Hlen Hj Hl Ha.
  assert (E1 : match_ JOIN_FORMAT
                 ("[" +:+ clock +:+ SERVER_TAG +:+ player +:+ " " +:+ cause) = None).
  { apply (no_match_after_player clock player _ " joined the game" t); try done.
    intros s gs k x. apply lit_starts. }
  assert (E2 : match_ LEAVE_FORMAT
                 ("[" +:+ clock +:+ SERVER_TAG +:+ player +:+ " " +:+ cause) = None).
  { apply (no_match_after_player clock player _ " left the game" t); try done.
    intros s gs k x. apply lit_starts. }
  assert (E3 : match_ ADVANCEMENT_FORMAT
                 ("[" +:+ clock +:+ SERVER_TAG +:+ player +:+ " " +:+ cause) = None).
  { apply (no_match_after_player clock player _ " has " t); try done.
    intros s gs k x. apply seq_lit_starts. }
  assert (E4 : match_ DEATH_FORMAT
                 ("[" +:+ clock +:+ SERVER_TAG +:+ player +:+ " " +:+ cause)
               = Some ([("cause", first_line cause); ("player", player);
                        ("time", clock)], after_line cause)).
  { unfold DEATH_FORMAT. cbn [cat]. rewrite (match_line clock _ t) by done.
    rewrite run_seq. apply run_player; try done.
    rewrite run_seq, run_lit. by rewrite run_dot_group by eauto. }
  unfold classify. rewrite E1, E2, E3, E4. unfold stamp, group. cbn [lookup_group].
  simpl default. destruct (bool_decide _); [done|]. by rewrite Ht.
Qed.

Lemma death_line_classified_witness :
  classify ("[" +:+ "14:22:01" +:+ SERVER_TAG +:+ "Steve" +:+ " "
            +:+ "was slain by Zombie") (Date 2024 3 5)
  = if bool_decide ("Steve" ∈ NOT_PLAYERS) then Ok None
    else Ok (Some (PlayerDeath (combine (Date 2024 3 5) (Time 14 22 1)) "Steve"
                     (first_line "was slain by Zombie"))).
Proof.
  apply (death_line_classified "14:22:01" "Steve" "was slain by Zombie"
           (Time 14 22 1) (Date 2024 3 5));
    [reflexivity | reflexivity | simpl; lia | reflexivity..].
Defined.

Section Outcomes.

Lemma time_fromisoformat_ok (s : string) (t : time) :
  time_fromisoformat s = Ok t → time_of_day t.
Proof.
  unfold time_fromisoformat, make_time, time_of_day. intros H.
  repeat case_match; simplify_eq. cbn [hour minute second].
  repeat match goal with
         | H : _ && _ = true |- _ => apply andb_true_iff in H as [H ?]
         end.
  lia.
Qed.

Lemma stamp_ok (d : date) (gs : groups) (dt : datetime) :
  stamp d gs = Ok dt → dt_date dt = d ∧ time_of_day (dt_time dt).
Proof.
  unfold stamp. destruct (time_fromisoformat _) as [t|] eqn:E; [|done].
  intros [= <-]. split; [done|]. by apply (time_fromisoformat_ok _ _ E).
Qed.

(** What the player group captured stays the player of the match. *)
Lemma player_captured (tail : regex) (s : string) (gs g : groups) (rest : string) :
  "player" ∉ names tail →
  run (Seq PLAYER tail) s gs (fun s' gs' => Some (gs', s')) = Some (g, rest) →
  str_forall is_word (group g "player") = true
  ∧ (1 <= String.length (group g "player") <= 16)%nat.
Proof.
  intros Hn H. rewrite run_seq in H.
  apply run_player_inv in H as (p & s' & -> & Hp & Hlen & H).
  apply run_inv in H as (s'' & g' & [= <- _] & _ & Hg).
  unfold group. rewrite (Hg "player" Hn). cbn [lookup_group].
  by rewrite String.eqb_refl.
Qed.

Lemma entry_format_player (r : regex) (s : string) (g : groups) (rest : string) :
  r ∈ ENTRY_FORMATS → match_ r s = Some (g, rest) →
  str_forall is_word (group g "player") = true
  ∧ (1 <= String.length (group g "player") <= 16)%nat.
Proof.
  intros Hr H. unfold ENTRY_FORMATS in Hr.
  repeat (apply elem_of_cons in Hr as [->|Hr]); [..|by apply elem_of_nil in Hr];
    unfold JOIN_FORMAT, LEAVE_FORMAT, ADVANCEMENT_FORMAT, DEATH_FORMAT,
      MESSAGE_FORMAT in H; cbn [cat] in H; rewrite match_head_tail in H;
    destruct (match_ ENTRY_HEAD s) as [[hg s']|]; try done.
  5: rewrite run_seq in H; apply run_lit_inv in H as (s'' & -> & H).
  all: refine (player_captured _ _ _ _ _ _ H);
    apply (bool_decide_unpack _); by vm_compute.
Qed.

Lemma no_head_no_match (tail : regex) (s : string) :
  match_ ENTRY_HEAD s = None → match_ (Seq ENTRY_HEAD tail) s = None.
Proof. intros H. by rewrite match_head_tail, H. Qed.

End Outcomes.

(** X5. The classification of an entry of ASCII text raises nothing but
    [ValueError], and only for an entry with the head of the entry
    patterns whose time field is not a time of day. *)
Theorem classify_raises_only_on_time (entry : string) (log_date : date) (e : exn) :
  ascii_text entry →
  classify entry log_date = Raise e →
  e = ValueError
  ∧ ∃ m, match_ ENTRY_HEAD entry = Some m
         ∧ time_fromisoformat (group m.1 "time") = Raise ValueError.
Proof.
  intros _ H. assert (e = ValueError) as -> by eauto using classify_raises.
  split; [done|].
  assert (Hone : ∀ r g rest, r ∈ ENTRY_FORMATS → match_ r entry = Some (g, rest) →
            (∃ e', stamp log_date g = Raise e') →
            ∃ m, match_ ENTRY_HEAD entry = Some m
                 ∧ time_fromisoformat (group m.1 "time") = Raise ValueError).
  { intros r g rest Hr Hm [e' He'].
    destruct (entry_format_time r entry (g, rest) Hr Hm) as (hg & s' & Hh & Ht).
    exists (hg, s'). split; [done|]. cbn [fst] in *. rewrite <- Ht.
    unfold stamp in He'. destruct (time_fromisoformat (group g "time")) as [?|e''] eqn:E;
      [done|]. f_equal. eauto using time_fromisoformat_raises. }
  unfold classify in H.
  repeat case_match; try done;
    match goal with
    | Hm : match_ ?r entry = Some (?g, ?rest),
      H : rbind (stamp log_date ?g) _ = Raise _ |- _ =>
        apply (Hone r g rest); [unfold ENTRY_FORMATS; by repeat constructor | done |];
        destruct (stamp log_date g); [done | by eexists]
    end.
Qed.

Lemma classify_raises_only_on_time_witness :
  ValueError = ValueError
  ∧ ∃ m, match_ ENTRY_HEAD bad_clock_entry = Some m
         ∧ time_fromisoformat (group m.1 "time") = Raise ValueError.
Proof.
  apply (classify_raises_only_on_time bad_clock_entry (Date 2024 3 5) ValueError);
    vm_compute; reflexivity.
Defined.

(** X6. An entry of ASCII text without the head of the entry patterns
    (the time in brackets and the tag of the server thread) gives no
    event and raises nothing. *)
Theorem no_head_no_event (entry : string) (log_date : date) :
  ascii_text entry →
  match_ ENTRY_HEAD entry = None → classify entry log_date = Ok None.
Proof.
  intros _ H. unfold classify, JOIN_FORMAT, LEAVE_FORMAT, ADVANCEMENT_FORMAT,
    DEATH_FORMAT, MESSAGE_FORMAT. cbn [cat].
  by rewrite !no_head_no_match.
Qed.

Lemma no_head_no_event_witness :
  classify "[14:22:01] [Server thread/WARN]: Can't keep up!" (Date 2024 3 5) = Ok None.
Proof. apply no_head_no_event; vm_compute; reflexivity. Defined.

(** X7. Every event of the classification of an entry of ASCII text
    carries the date of the log and a time of day, and a player name of
    1 to 16 word characters; a join or leave event is marked [join] or
    [leave], and the player of a death is not in [NOT_PLAYERS]. *)
Theorem event_invariant (entry : string) (log_date : date) (ev : event) :
  ascii_text entry →
  classify entry log_date = Ok (Some ev) →
  dt_date (event_time ev) = log_date
  ∧ time_of_day (dt_time (event_time ev))
  ∧ str_forall is_word (event_player ev) = true
  ∧ (1 <= String.length (event_player ev) <= 16)%nat
  ∧ match ev with
    | PlayerJoinLeave _ _ ty => ty = "join" ∨ ty = "leave"
    | PlayerDeath _ p _ => p ∉ NOT_PLAYERS
    | _ => True
    end.
Proof.
  unfold classify. intros _ H.
  assert (Hfin : ∀ r g rest (mk : datetime → event),
            r ∈ ENTRY_FORMATS → match_ r entry = Some (g, rest) →
            rbind (stamp log_date g) (fun t => Ok (Some (mk t))) = Ok (Some ev) →
            (∀ t, event_time (mk t) = t) →
            (∀ t, event_player (mk t) = group g "player") →
            dt_date (event_time ev) = log_date
            ∧ time_of_day (dt_time (event_time ev))
            ∧ str_forall is_word (event_player ev) = true
            ∧ (1 <= String.length (event_player ev) <= 16)%nat
            ∧ ∃ t, ev = mk t).
  { intros r g rest mk Hr Hm Hb Htime Hplayer.
    destruct (stamp log_date g) as [dt|] eqn:Es; [|done].
    cbn [rbind] in Hb. injection Hb as <-.
    apply stamp_ok in Es as [Hd Ht].
    destruct (entry_format_player r entry g rest Hr Hm) as [Hw Hl].
    rewrite Htime, Hplayer. split_and!; try done; [lia.. | by exists dt]. }
  destruct (match_ JOIN_FORMAT entry) as [[g rest]|] eqn:E1.
  { destruct (Hfin JOIN_FORMAT g rest
                (fun t => PlayerJoinLeave t (group g "player") "join")
                ltac:(by repeat constructor) E1 H ltac:(done) ltac:(done))
      as (? & ? & ? & ? & t & ->).
    split_and!; try done; try lia. by left. }
  destruct (match_ LEAVE_FORMAT entry) as [[g rest]|] eqn:E2.
  { destruct (Hfin LEAVE_FORMAT g rest
                (fun t => PlayerJoinLeave t (group g "player") "leave")
                ltac:(by repeat constructor) E2 H ltac:(done) ltac:(done))
      as (? & ? & ? & ? & t & ->).
    split_and!; try done; try lia. by right. }
  destruct (match_ ADVANCEMENT_FORMAT entry) as [[g rest]|] eqn:E3.
  { destruct (Hfin ADVANCEMENT_FORMAT g rest
                (fun t => PlayerAdvancement t (group g "player")
                            (group g "advancement"))
                ltac:(by repeat constructor) E3 H ltac:(done) ltac:(done))
      as (? & ? & ? & ? & t & ->).
    split_and!; try done; lia. }
  destruct (match_ DEATH_FORMAT entry) as [[g rest]|] eqn:E4.
  { destruct (bool_decide (group g "player" ∈ NOT_PLAYERS)) eqn:Eb; [done|].
    apply bool_decide_eq_false in Eb.
    destruct (Hfin DEATH_FORMAT g rest
                (fun t => PlayerDeath t (group g "player") (group g "cause"))
                ltac:(by repeat constructor) E4 H ltac:(done) ltac:(done))
      as (? & ? & ? & ? & t & ->).
    split_and!; try done; lia. }
  destruct (match_ MESSAGE_FORMAT entry) as [[g rest]|] eqn:E5; [|done].
  destruct (Hfin MESSAGE_FORMAT g rest
              (fun t => PlayerMessage t (group g "player") (group g "message"))
              ltac:(by repeat constructor) E5 H ltac:(done) ltac:(done))
    as (? & ? & ? & ? & t & ->).
  split_and!; try done; lia.
Qed.

Lemma event_invariant_witness :
  let ev := PlayerJoinLeave (Datetime (Date 2024 3 5) (Time 14 22 1)) "Alex" "join" in
  dt_date (event_time ev) = Date 2024 3 5
  ∧ time_of_day (dt_time (event_time ev))
  ∧ str_forall is_word (event_player ev) = true
  ∧ (1 <= String.length (event_player ev) <= 16)%nat
  ∧ ("join" = "join" ∨ "join" = "leave").
Proof.
  apply (event_invariant good_entry (Date 2024 3 5)); vm_compute; reflexivity.
Defined.

(** * Further properties of the export *)

Section ExportContent.

Implicit Types fs g : gmap string node.

Lemma paths_elem (files : list (string * event_type)) (p : string) :
  p ∈ paths files ↔ ∃ f ty, (f, ty) ∈ files ∧ p = output_path f.
Proof.
  unfold paths. rewrite list_elem_of_fmap. split.
  - intros ([f ty] & -> & H). by exists f, ty.
  - intros (f & ty & H & ->). by exists (f, ty).
Qed.

(** After a loop over the files that raised nothing, every file of the
    list holds its text. *)
Lemma write_csvs_written files es : ∀ fs fs1 f ty,
  write_csvs files es fs = (Ok tt, fs1) →
  NoDup (paths files) → (f, ty) ∈ files →
  fs1 !! output_path f = Some (File (csv_text ty es)).
Proof.
  induction files as [|[f0 ty0] rest IH]; intros fs fs1 f ty H Hnd Hin;
    [by apply elem_of_nil in Hin|].
  cbn [write_csvs] in H. unfold paths in Hnd. cbn [fmap list_fmap fst] in Hnd.
  fold (paths rest) in Hnd. apply NoDup_cons in Hnd as [Hf Hnd].
  destruct (write_file _ _ fs) as [[[]|e] fs'] eqn:E; [|done].
  apply elem_of_cons in Hin as [[= -> ->]|Hin].
  - rewrite (write_csvs_other _ _ _ _ _ _ H Hf).
    unfold write_file in E. repeat case_match; simplify_eq; by rewrite lookup_insert_eq.
  - by apply (IH _ _ _ _ H).
Qed.

(** Whether the loop over the files raises depends on the node of
    [output] and on the paths that are directories, and on nothing else. *)
Lemma write_csvs_ok files es : ∀ fs,
  "output" ∉ paths files →
  (write_csvs files es fs).1 = Ok tt ↔
  (files = [] ∨ fs !! "output" = Some Dir)
  ∧ ∀ p, p ∈ paths files → fs !! p ≠ Some Dir.
Proof.
  induction files as [|[f ty] rest IH]; intros fs Hout.
  - cbn [write_csvs fst]. split; [|done]. intros _. split; [by left|].
    intros p Hp. by apply elem_of_nil in Hp.
  - unfold paths in Hout. cbn [fmap list_fmap fst] in Hout. fold (paths rest) in Hout.
    apply not_elem_of_cons in Hout as [Hne Hout].
    cbn [write_csvs]. unfold write_file.
    assert (Hcons : ∀ P : string → Prop,
              (∀ p, p ∈ paths ((f, ty) :: rest) → P p)
              ↔ P (output_path f) ∧ ∀ p, p ∈ paths rest → P p).
    { intros P. unfold paths. cbn [fmap list_fmap fst]. split.
      - intros H. split; [apply H; by left | intros p Hp; apply H; by right].
      - intros [H1 H2] p [->|Hp]%elem_of_cons; auto. }
    rewrite Hcons.
    destruct (fs !! "output") as [[|c]|] eqn:Eo.
    + destruct (fs !! output_path f) as [[|c]|] eqn:Ep; cbn [fst].
      * split; [done|]. by intros (_ & ? & _).
      * rewrite IH by done. rewrite lookup_insert_ne by done. rewrite Eo.
        split.
        -- intros [_ H]. split_and!; [by right | done |].
           intros p Hp. specialize (H p Hp).
           destruct (decide (p = output_path f)) as [->|]; [by rewrite Ep|].
           by rewrite lookup_insert_ne in H.
        -- intros (_ & _ & H). split; [by right|]. intros p Hp.
           destruct (decide (p = output_path f)) as [->|].
           ++ by rewrite lookup_insert_eq.
           ++ rewrite lookup_insert_ne by done. by apply H.
      * rewrite IH by done. rewrite lookup_insert_ne by done. rewrite Eo.
        split.
        -- intros [_ H]. split_and!; [by right | done |].
           intros p Hp. specialize (H p Hp).
           destruct (decide (p = output_path f)) as [->|]; [by rewrite Ep|].
           by rewrite lookup_insert_ne in H.
        -- intros (_ & _ & H). split; [by right|]. intros p Hp.
           destruct (decide (p = output_path f)) as [->|].
           ++ by rewrite lookup_insert_eq.
           ++ rewrite lookup_insert_ne by done. by apply H.
    + cbn [fst]. split; [done|]. by intros ([?|?] & _).
    + cbn [fst]. split; [done|]. by intros ([?|?] & _).
Qed.

Lemma ensure_output_other fs k : k ≠ "output" → ensure_output fs !! k = fs !! k.
Proof.
  intros Hk. unfold ensure_output. destruct (fs !! "output"); [done|].
  by rewrite lookup_insert_ne.
Qed.

Lemma ensure_output_kept fs n : fs !! "output" = Some n → ensure_output fs = fs.
Proof. intros H. unfold ensure_output. by rewrite H. Qed.

Lemma export_ok_iff es fs :
  (export es fs).1 = Ok tt ↔
  (fs !! "output" = None ∨ fs !! "output" = Some Dir)
  ∧ ∀ p, p ∈ paths CSV_FILES → fs !! p ≠ Some Dir.
Proof.
  unfold export. destruct csv_paths_distinct as [Hnd Hout].
  rewrite write_csvs_ok by done. split.
  - intros [[?|Ho] Hp]; [done|]. split.
    + unfold ensure_output in Ho.
      destruct (fs !! "output") eqn:E; [right; congruence | by left].
    + intros p Hin. rewrite <- (ensure_output_other fs p); [by apply Hp|].
      intros ->. done.
  - intros [Ho Hp]. split.
    + right. unfold ensure_output.
      destruct Ho as [->| Ho]; [by rewrite lookup_insert_eq | by rewrite Ho].
    + intros p Hin. rewrite ensure_output_other; [by apply Hp|].
      intros ->. done.
Qed.

Lemma export_written es fs fs' f ty :
  export es fs = (Ok tt, fs') → (f, ty) ∈ CSV_FILES →
  fs' !! output_path f = Some (File (csv_text ty es)).
Proof.
  unfold export. intros H Hin. destruct csv_paths_distinct as [Hnd _].
  by apply (write_csvs_written _ _ _ _ _ _ H).
Qed.

Lemma export_other es fs k :
  k ≠ "output" → k ∉ paths CSV_FILES → (export es fs).2 !! k = fs !! k.
Proof.
  intros Hk Hp. unfold export.
  destruct (write_csvs CSV_FILES es (ensure_output fs)) as [r fs1] eqn:E.
  cbn [snd]. rewrite (write_csvs_other _ _ _ _ _ _ E Hp).
  by apply ensure_output_other.
Qed.

Lemma export_output es fs :
  (export es fs).2 !! "output" = Some (default Dir (fs !! "output")).
Proof.
  unfold export. destruct csv_paths_distinct as [_ Hout].
  destruct (write_csvs CSV_FILES es (ensure_output fs)) as [r fs1] eqn:E.
  cbn [snd]. rewrite (write_csvs_other _ _ _ _ _ _ E Hout).
  unfold ensure_output. destruct (fs !! "output") as [n|] eqn:Eo; [by rewrite Eo|].
  by rewrite lookup_insert_eq.
Qed.

(** An export that raised nothing is undone by the next one. *)
Lemma export_over es1 es2 fs :
  (export es1 fs).1 = Ok tt →
  export es2 (export es1 fs).2 = export es2 fs.
Proof.
  intros H1.
  assert (H2 : (export es2 fs).1 = Ok tt) by (by rewrite export_ok_iff in *).
  destruct (export es1 fs) as [r1 fs1] eqn:E1. cbn [fst snd] in *. subst r1.
  assert (H3 : (export es2 fs1).1 = Ok tt).
  { apply export_ok_iff. split.
    - right. pose proof (export_output es1 fs) as Ho. rewrite E1 in Ho.
      cbn [snd] in Ho. rewrite Ho. apply export_ok_iff in H2 as [[->| ->] _]; done.
    - intros p (f & ty & Hin & ->)%paths_elem.
      by rewrite (export_written _ _ _ _ _ E1 Hin). }
  destruct (export es2 fs) as [r2 fs2] eqn:E2.
  destruct (export es2 fs1) as [r3 fs3] eqn:E3. cbn [fst] in *. subst r2 r3.
  f_equal. apply map_eq. intros k.
  destruct (decide (k ∈ paths CSV_FILES)) as [(f & ty & Hin & ->)%paths_elem|Hk].
  { by rewrite (export_written _ _ _ _ _ E2 Hin), (export_written _ _ _ _ _ E3 Hin). }
  destruct (decide (k = "output")) as [->|Hko].
  - pose proof (export_output es2 fs1) as Ha. pose proof (export_output es2 fs) as Hb.
    pose proof (export_output es1 fs) as Hc.
    rewrite E3 in Ha. rewrite E2 in Hb. rewrite E1 in Hc. cbn [snd] in *.
    rewrite Ha, Hb, Hc. by destruct (fs !! "output").
  - pose proof (export_other es2 fs1 k Hko Hk) as Ha.
    pose proof (export_other es2 fs k Hko Hk) as Hb.
    pose proof (export_other es1 fs k Hko Hk) as Hc.
    rewrite E3 in Ha. rewrite E2 in Hb. rewrite E1 in Hc. cbn [snd] in *.
    by rewrite Ha, Hb, Hc.
Qed.

End ExportContent.

(** X8. The export raises nothing only when [output] is not there or
    is a directory, and none of the four paths of the CSV files is a
    directory: a regular file at [output] or a directory at one of the
    four paths makes it raise. *)
Theorem export_succeeds_only_if (event_stream : list event) (fs : gmap string node) :
  (export event_stream fs).1 = Ok tt →
  (fs !! "output" = None ∨ fs !! "output" = Some Dir)
  ∧ ∀ f ty, (f, ty) ∈ CSV_FILES → fs !! output_path f ≠ Some Dir.
Proof.
  rewrite export_ok_iff. intros [Ho Hp]. split; [done|].
  intros f ty Hin. apply Hp, paths_elem. by exists f, ty.
Qed.

Lemma export_succeeds_only_if_witness :
  ((∅ : gmap string node) !! "output" = None
   ∨ (∅ : gmap string node) !! "output" = Some Dir)
  ∧ ∀ f ty, (f, ty) ∈ CSV_FILES → (∅ : gmap string node) !! output_path f ≠ Some Dir.
Proof.
  apply (export_succeeds_only_if two_days_events ∅). vm_compute. reflexivity.
Defined.

(** X9. After an export that raised nothing, [output] is a directory
    and each of the four CSV files holds the header of its type of event
    and the rows of the events of that type, in the order of the stream. *)
Theorem export_writes (event_stream : list event) (fs fs' : gmap string node) :
  export event_stream fs = (Ok tt, fs') →
  fs' !! "output" = Some Dir
  ∧ ∀ f ty, (f, ty) ∈ CSV_FILES →
      fs' !! output_path f = Some (File (csv_text ty event_stream)).
Proof.
  intros H. split.
  - pose proof (export_output event_stream fs) as Ho. rewrite H in Ho. cbn [snd] in Ho.
    rewrite Ho. assert (Hok : (export event_stream fs).1 = Ok tt) by by rewrite H.
    apply export_ok_iff in Hok as [[->| ->] _]; done.
  - intros f ty Hin. by apply (export_written _ _ _ _ _ H).
Qed.

Lemma export_writes_witness :
  (export two_days_events ∅).2 !! "output" = Some Dir
  ∧ ∀ f ty, (f, ty) ∈ CSV_FILES →
      (export two_days_events ∅).2 !! output_path f
      = Some (File (csv_text ty two_days_events)).
Proof.
  apply (export_writes two_days_events ∅). vm_compute. reflexivity.
Defined.

(** X10. Whatever its outcome, the export leaves every path but
    [output] and the four paths of the CSV files as it was, and never
    replaces what is at [output]. *)
Theorem export_frame (event_stream : list event) (fs : gmap string node) :
  (∀ k, k ≠ "output" → (∀ f ty, (f, ty) ∈ CSV_FILES → k ≠ output_path f) →
        (export event_stream fs).2 !! k = fs !! k)
  ∧ (∀ n, fs !! "output" = Some n →
          (export event_stream fs).2 !! "output" = Some n).
Proof.
  split.
  - intros k Hk Hp. apply export_other; [done|].
    intros (f & ty & Hin & ->)%paths_elem. by apply (Hp f ty).
  - intros n Hn. by rewrite export_output, Hn.
Qed.

(** X11. An export after one that raised nothing does what it would
    have done without the first one: the later event stream replaces the
    earlier one in every file. *)
Theorem export_overwrites (es1 es2 : list event) (fs : gmap string node) :
  (export es1 fs).1 = Ok tt →
  export es2 (export es1 fs).2 = export es2 fs.
Proof. apply export_over. Qed.

Lemma export_overwrites_witness :
  export two_days_events (export [] ∅).2 = export two_days_events ∅.
Proof. apply (export_overwrites [] two_days_events ∅). vm_compute. reflexivity. Defined.

(** X12. The four CSV files share out the event stream: every event is
    a row of one file, so that the numbers of rows add up to the number
    of events. *)
Theorem rows_partition (event_stream : list event) :
  sum_list_with
    (fun file => length (filter (fun r => type_of r = file.2) event_stream))
    CSV_FILES
  = length event_stream.
Proof.
  induction event_stream as [|e es IH]; [done|].
  cbn [sum_list_with CSV_FILES snd] in *. rewrite !filter_cons.
  destruct e; cbn [type_of];
    repeat (destruct (decide _) as [?|?]; try done);
    cbn [length]; lia.
Qed.

(** * Further properties of the run *)

Section WholeRun.

Implicit Types fs : gmap string node.

(** After a loop over at least one log file that raised nothing, the
    files are those of the export of the whole event stream. *)
Lemma process_final (w : world) (log_files : list string) :
  ∀ event_stream fs es fs',
    log_files ≠ [] →
    process w log_files event_stream fs = (Ok es, fs') →
    export es fs = (Ok tt, fs').
Proof.
  induction log_files as [|f rest IH]; intros es0 fs es fs' Hne H; [done|].
  cbn [process] in H.
  destruct (read_events w f) as [ev|e] eqn:E; [|done].
  destruct (export (es0 ++ ev) fs) as [[[]|e] fs1] eqn:Ex; [|done].
  destruct rest as [|f' rest'].
  - cbn [process] in H. by injection H as <- <-.
  - apply IH in H; [|done].
    rewrite <- H. symmetry.
    pose proof (export_over (es0 ++ ev) es fs) as Ho. rewrite Ex in Ho.
    by apply Ho.
Qed.

(** The date group of the file-name pattern takes the text of a date. *)
Lemma run_iso_date {A} y1 y2 y3 y4 m1 m2 d1 d2 rest gs
    (k : string → groups → option A) :
  all_digits [y1; y2; y3; y4; m1; m2; d1; d2] →
  run (cat [exactly Digit 4; Lit "-"; exactly Digit 2; Lit "-"; exactly Digit 2])
    (iso_date y1 y2 y3 y4 m1 m2 d1 d2 +:+ rest) gs k = k rest gs.
Proof.
  intros Hd. unfold all_digits in Hd.
  apply Forall_cons in Hd as [Hy1 Hd]. apply Forall_cons in Hd as [Hy2 Hd].
  apply Forall_cons in Hd as [Hy3 Hd]. apply Forall_cons in Hd as [Hy4 Hd].
  apply Forall_cons in Hd as [Hm1 Hd]. apply Forall_cons in Hd as [Hm2 Hd].
  apply Forall_cons in Hd as [Hd1 Hd]. apply Forall_cons in Hd as [Hd2 _].
  change (iso_date y1 y2 y3 y4 m1 m2 d1 d2 +:+ rest)
    with (String y1 (String y2 (String y3 (String y4 ""))) +:+ "-"
          +:+ String m1 (String m2 "") +:+ "-" +:+ String d1 (String d2 "") +:+ rest).
  cbn [cat].
  rewrite run_seq, run_exactly;
    [|by cbn [str_forall mem]; rewrite Hy1, Hy2, Hy3, Hy4|done].
  rewrite run_seq, run_lit.
  rewrite run_seq, run_exactly; [|by cbn [str_forall mem]; rewrite Hm1, Hm2|done].
  rewrite run_seq, run_lit.
  rewrite run_exactly; [done|by cbn [str_forall mem]; rewrite Hd1, Hd2|done].
Qed.

(** A name the file-name pattern matches in full is a date, a hyphen,
    digits and [.log.gz]. *)
Lemma filename_inv (name : string) (m : groups) :
  fullmatch LOG_FILENAME_FORMAT name = Some m →
  ∃ y1 y2 y3 y4 m1 m2 d1 d2 n,
    name = log_file_name y1 y2 y3 y4 m1 m2 d1 d2 n
    ∧ all_digits [y1; y2; y3; y4; m1; m2; d1; d2]
    ∧ n ≠ "" ∧ str_forall is_digit n = true.
Proof.
  unfold fullmatch, LOG_FILENAME_FORMAT. cbn [cat]. intros H.
  rewrite run_seq, run_grp_unfold in H.
  rewrite run_seq in H.
  apply run_exactly_inv in H as (y & r1 & E1 & Hy & Dy & H).
  rewrite run_seq in H. apply run_lit_inv in H as (r2 & -> & H).
  rewrite run_seq in H.
  apply run_exactly_inv in H as (mo & r3 & -> & Hm & Dm & H).
  rewrite run_seq in H. apply run_lit_inv in H as (r4 & -> & H).
  apply run_exactly_inv in H as (da & r5 & -> & Hda & Dda & H).
  rewrite run_seq in H. apply run_lit_inv in H as (r6 & -> & H).
  rewrite run_seq in H. cbn [run] in H.
  apply rep_inv_prefix in H as (n & r7 & -> & Dn & Hn & _ & H).
  destruct (strip ".log.gz" r7) as [r8|] eqn:E8; [|done].
  apply strip_inv in E8 as ->. destruct r8; [|done].
  destruct y as [|y1 [|y2 [|y3 [|y4 [|]]]]]; try done.
  destruct mo as [|m1 [|m2 [|]]]; try done.
  destruct da as [|d1 [|d2 [|]]]; try done.
  cbn [str_forall mem] in Dy, Dm, Dda.
  repeat match goal with
         | H : _ && _ = true |- _ => apply andb_true_iff in H as [? ?]
         end.
  exists y1, y2, y3, y4, m1, m2, d1, d2, n.
  split_and!; [by rewrite E1 | by repeat constructor | | done].
  intros ->. cbn [String.length] in Hn. lia.
Qed.

Lemma filename_matches y1 y2 y3 y4 m1 m2 d1 d2 (n : string) :
  all_digits [y1; y2; y3; y4; m1; m2; d1; d2] →
  n ≠ "" → str_forall is_digit n = true →
  fullmatch LOG_FILENAME_FORMAT (log_file_name y1 y2 y3 y4 m1 m2 d1 d2 n)
  = Some [("date", iso_date y1 y2 y3 y4 m1 m2 d1 d2)].
Proof.
  intros Hd Hne Hn. unfold fullmatch, LOG_FILENAME_FORMAT, log_file_name. cbn [cat].
  rewrite run_seq.
  rewrite (run_grp "date" _ (iso_date y1 y2 y3 y4 m1 m2 d1 d2) _ [] []);
    [|intros B k'; by apply run_iso_date].
  rewrite run_seq, run_lit, run_seq. cbn [run].
  apply rep_greedy; try done.
  destruct n; [done|]. cbn [String.length]. lia.
Qed.

End WholeRun.

(** X13. Among the names of ASCII text, the names the run takes for log
    files are the names made of a date [YYYY-MM-DD], a hyphen, one or
    more digits and [.log.gz], and nothing before or after. *)
Theorem log_file_names (name : string) :
  ascii_text name →
  is_Some (fullmatch LOG_FILENAME_FORMAT name) ↔
  ∃ y1 y2 y3 y4 m1 m2 d1 d2 n,
    name = log_file_name y1 y2 y3 y4 m1 m2 d1 d2 n
    ∧ all_digits [y1; y2; y3; y4; m1; m2; d1; d2]
    ∧ n ≠ "" ∧ str_forall is_digit n = true.
Proof.
  intros _. split.
  - intros [m Hm]. by apply (filename_inv name m).
  - intros (y1 & y2 & y3 & y4 & m1 & m2 & d1 & d2 & n & -> & Hd & Hne & Hn).
    eexists. by apply filename_matches.
Qed.

Lemma log_file_names_witness :
  is_Some (fullmatch LOG_FILENAME_FORMAT "2024-01-02-13.log.gz") ↔
  ∃ y1 y2 y3 y4 m1 m2 d1 d2 n,
    "2024-01-02-13.log.gz" = log_file_name y1 y2 y3 y4 m1 m2 d1 d2 n
    ∧ all_digits [y1; y2; y3; y4; m1; m2; d1; d2]
    ∧ n ≠ "" ∧ str_forall is_digit n = true.
Proof. apply (log_file_names "2024-01-02-13.log.gz"). vm_compute. reflexivity. Defined.

(** X14. The order in which the directory lists its names has no effect:
    two listings with the same names give the same log files in the same
    order. *)
Theorem listing_order_irrelevant (names names' : list string) :
  names ≡ₚ names' → sorted_log_files names = sorted_log_files names'.
Proof.
  intros Hp. apply (StronglySorted_unique String.le);
    [apply sorted_log_files_sorted.. |].
  unfold sorted_log_files. rewrite !merge_sort_Permutation. by rewrite Hp.
Qed.

Lemma listing_order_irrelevant_witness :
  sorted_log_files ["2024-01-02-1.log.gz"; "2024-01-01-1.log.gz"; "notes.txt"]
  = sorted_log_files ["2024-01-01-1.log.gz"; "2024-01-02-1.log.gz"; "notes.txt"].
Proof. apply listing_order_irrelevant. apply perm_swap. Defined.

(** X15. The event stream of a run that raised nothing is the events of
    the log files, file after file in the order of their names; every
    log file of the directory was read and classified to its end. *)
Theorem stream_is_concatenation (w : world) (fs fs' : gmap string node)
    (event_stream : list event) (names : list string) :
  os_listdir w (LOG_DIRECTORY w) = Ok names →
  main w fs = (Ok event_stream, fs') →
  ∃ evs, Forall2 (fun f ev => read_events w f = Ok ev) (sorted_log_files names) evs
         ∧ event_stream = concat evs.
Proof.
  intros Hl H. unfold main in H. rewrite Hl in H.
  apply process_ok in H as (evs & Hall & ->). by exists evs.
Qed.

Lemma stream_is_concatenation_witness :
  ∃ evs,
    Forall2 (fun f ev => read_events two_days_world f = Ok ev)
      (sorted_log_files ["2024-01-02-1.log.gz"; "notes.txt"; "2024-01-01-1.log.gz"])
      evs
    ∧ two_days_events = concat evs.
Proof.
  apply (stream_is_concatenation two_days_world ∅ (main two_days_world ∅).2).
  - vm_compute. reflexivity.
  - vm_compute. reflexivity.
Defined.

(** X16. After a run over at least one log file that raised nothing, the
    files are those of one export of the whole event stream: the exports
    after the earlier log files leave no trace. *)
Theorem final_output (w : world) (fs fs' : gmap string node)
    (event_stream : list event) (names : list string) :
  os_listdir w (LOG_DIRECTORY w) = Ok names →
  sorted_log_files names ≠ [] →
  main w fs = (Ok event_stream, fs') →
  export event_stream fs = (Ok tt, fs').
Proof.
  intros Hl Hne H. unfold main in H. rewrite Hl in H.
  by apply (process_final w (sorted_log_files names) [] fs).
Qed.

Lemma final_output_witness :
  export two_days_events ∅ = (Ok tt, (main two_days_world ∅).2).
Proof.
  apply (final_output two_days_world ∅ (main two_days_world ∅).2 two_days_events
           ["2024-01-02-1.log.gz"; "notes.txt"; "2024-01-01-1.log.gz"]).
  - vm_compute. reflexivity.
  - vm_compute. discriminate.
  - vm_compute. reflexivity.
Defined.

(** * Physical lines from the log to the CSV files *)

Section SingleLines.

Lemma str_exists_app (f : ascii → bool) (a b : string) :
  str_exists f (a +:+ b) = str_exists f a || str_exists f b.
Proof.
  induction a as [|c a IH]; cbn [String.append str_exists]; [done|].
  by rewrite IH, orb_assoc.
Qed.

Lemma single_line_app (a b : string) :
  single_line (a +:+ b) ↔ single_line a ∧ single_line b.
Proof. unfold single_line. rewrite str_exists_app. apply orb_false_iff. Qed.

Lemma single_line_take (n : nat) (s : string) :
  single_line s → single_line (str_take n s).
Proof.
  unfold single_line. revert s. induction n as [|n IH]; intros [|c s];
    cbn [str_take str_exists]; try done.
  intros [Hc Hs]%orb_false_iff. rewrite Hc. by apply IH.
Qed.

(** On a text of one line, whatever [run] hands to its continuation is
    of one line: the rest of the text and every group. *)
Lemma run_single_line {A} r : ∀ s gs (k : string → groups → option A) a,
  run r s gs k = Some a →
  single_line s → Forall (fun g => single_line g.2) gs →
  ∃ s' gs', k s' gs' = Some a ∧ single_line s'
            ∧ Forall (fun g => single_line g.2) gs'.
Proof.
  induction r as [p|cs|cs lo hi|r1 IH1 r2 IH2|r1 IH1 r2 IH2|name r1 IH1];
    intros s gs k a H Hs Hg.
  - apply run_lit_inv in H as (s' & -> & H). apply single_line_app in Hs as [_ Hs].
    by exists s', gs.
  - cbn [run] in H. destruct s as [|c s]; [done|]. destruct (mem cs c); [|done].
    exists s, gs. split_and!; try done.
    change (String c s) with (String c "" +:+ s) in Hs.
    by apply single_line_app in Hs as [_ Hs].
  - cbn [run] in H. apply rep_inv_prefix in H as (pre & s' & -> & _ & _ & _ & H).
    apply single_line_app in Hs as [_ Hs]. by exists s', gs.
  - rewrite run_seq in H.
    apply IH1 in H as (s1 & gs1 & H & Hs1 & Hg1); [|done..].
    by apply IH2 in H.
  - cbn [run] in H. destruct (run r1 s gs k) as [x|] eqn:E.
    + injection H as ->. by apply IH1 in E.
    + by apply IH2 in H.
  - rewrite run_grp_unfold in H.
    apply IH1 in H as (s1 & gs1 & H & Hs1 & Hg1); [|done..].
    eexists _, _. split_and!; [exact H | done |].
    constructor; [|done]. cbn [snd]. by apply single_line_take.
Qed.

Lemma match_single_line (r : regex) (entry : string) (g : groups) (rest : string) :
  match_ r entry = Some (g, rest) → single_line entry →
  ∀ name, single_line (group g name).
Proof.
  unfold match_. intros H Hs name.
  apply run_single_line in H as (s' & g' & [= -> _] & _ & Hg); [|done|constructor].
  unfold group. clear Hs. induction g as [|[n v] g IH]; cbn [lookup_group]; [done|].
  apply Forall_cons in Hg as [Hv Hg].
  destruct (String.eqb n name); [done | by apply IH].
Qed.

(** The events of an entry of one line have texts of one line. *)
Lemma classify_single_line (entry : string) (d : date) (ev : event) :
  classify entry d = Ok (Some ev) → single_line entry → single_line_event ev.
Proof.
  unfold classify, single_line_event. intros H Hs.
  repeat match type of H with
         | context [match_ ?r entry] =>
             let E := fresh "E" in
             destruct (match_ r entry) as [[g rest]|] eqn:E;
               [pose proof (match_single_line _ _ _ _ E Hs) as Hg;
                try (destruct (bool_decide _); [done|]);
                destruct (stamp d g); [|done]; cbn [rbind] in H;
                injection H as <-; cbn [event_player event_text];
                by split |]
         end.
  done.
Qed.

Lemma collect_single_line (entries : list string) (d : date) (es : list event) :
  collect entries d = Ok es → Forall single_line entries →
  Forall single_line_event es.
Proof.
  revert es. induction entries as [|entry rest IH]; intros es H Hs; cbn [collect] in H.
  - injection H as <-. constructor.
  - apply Forall_cons in Hs as [Hs Hrest].
    destruct (classify entry d) as [o|] eqn:E; [|done]. cbn [rbind] in H.
    destruct (collect rest d) as [es'|]; [|done]. cbn [rbind] in H.
    injection H as <-. specialize (IH es' eq_refl Hrest).
    destruct o as [ev|]; [|done]. constructor; [|done].
    by apply (classify_single_line entry d).
Qed.

Lemma findall_single_line (log : string) :
  Forall single_line (findall LOG_ENTRY_FORMAT log).
Proof.
  rewrite findall_lines.
  pose proof (lines_no_newline log) as Hn. rewrite lines_head in Hn.
  apply Forall_cons in Hn as [_ Hn].
  induction Hn as [|l ls Hl Hls IH]; [constructor|].
  rewrite filter_cons. destruct (decide (has_marker l)); [by constructor | done].
Qed.

Lemma read_events_single_line (w : world) (f : string) (es : list event) :
  read_events w f = Ok es → Forall single_line_event es.
Proof.
  unfold read_events, log_events. intros H.
  destruct (fullmatch _ _); [|done].
  destruct (date_fromisoformat _) as [d|]; [|done]. cbn [rbind] in H.
  destruct (read_log _ _ _) as [log|]; [|done]. cbn [rbind] in H.
  apply (collect_single_line _ _ _ H), findall_single_line.
Qed.

End SingleLines.

(** X17. In the event stream of a run that raised nothing, the player
    and the text of every event are of one physical line: no field has a
    newline in it. *)
Theorem events_are_single_lines (w : world) (fs fs' : gmap string node)
    (event_stream : list event) :
  main w fs = (Ok event_stream, fs') →
  Forall single_line_event event_stream.
Proof.
  unfold main. intros H.
  destruct (os_listdir w (LOG_DIRECTORY w)) as [names|]; [|done].
  apply process_ok in H as (evs & Hall & ->). cbn [app].
  induction Hall as [|f ev files evs Hf Hall IH]; [constructor|].
  cbn [concat]. apply Forall_app. split; [|done].
  by apply (read_events_single_line w f).
Qed.

Lemma events_are_single_lines_witness : Forall single_line_event two_days_events.
Proof.
  apply (events_are_single_lines two_days_world ∅ (main two_days_world ∅).2).
  vm_compute. reflexivity.
Defined.

Section CsvLines.

Local Open Scope Z_scope.

Lemma count_char_app (c : ascii) (a b : string) :
  count_char c (a +:+ b) = (count_char c a + count_char c b)%nat.
Proof.
  induction a as [|x a IH]; cbn [String.append count_char]; [done|].
  rewrite IH. lia.
Qed.

Lemma single_line_count (s : string) :
  single_line s → count_char newline s = O.
Proof.
  unfold single_line. induction s as [|c s IH]; cbn [str_exists count_char]; [done|].
  intros [Hc Hs]%orb_false_iff. rewrite Hc. by rewrite IH.
Qed.

Lemma double_quotes_lines (s : string) :
  count_char newline (double_quotes s) = count_char newline s.
Proof.
  induction s as [|c s IH]; cbn [double_quotes count_char]; [done|].
  destruct (Ascii.eqb_spec c dquote) as [->|]; cbn [count_char]; rewrite IH; [|done].
  reflexivity.
Qed.

(** Quoting a field adds no newline. *)
Lemma csv_field_lines (s : string) :
  count_char newline (csv_field s) = count_char newline s.
Proof.
  unfold csv_field. destruct (str_exists _ s); [|done].
  rewrite count_char_app.
  replace (count_char newline (String dquote "")) with O by reflexivity.
  cbn [count_char]. rewrite double_quotes_lines.
  replace (if Ascii.eqb newline dquote then 1%nat else 0%nat) with O by reflexivity.
  lia.
Qed.

(** A row of fields of one line is one physical line. *)
Lemma writerow_lines (fields : list string) :
  Forall single_line fields → count_char newline (writerow fields) = 1%nat.
Proof.
  intros Hf. unfold writerow. rewrite count_char_app.
  replace (count_char newline (String carriage_return (String newline "")))
    with 1%nat by reflexivity.
  assert (count_char newline (join_with "," (csv_field <$> fields)) = O) as ->; [|done].
  induction Hf as [|f fs Hf Hfs IH]; [done|].
  cbn [fmap list_fmap join_with]. fold (fmap csv_field fs).
  destruct (csv_field <$> fs) as [|f' fs'] eqn:E.
  - by rewrite csv_field_lines, single_line_count.
  - rewrite !count_char_app, csv_field_lines, single_line_count by done.
    by rewrite IH.
Qed.

Lemma digit_char_single_line (d : Z) :
  0 <= d <= 9 → Ascii.eqb newline (digit_char d) = false.
Proof.
  intros Hd.
  assert (d = 0 ∨ d = 1 ∨ d = 2 ∨ d = 3 ∨ d = 4 ∨ d = 5 ∨ d = 6 ∨ d = 7
          ∨ d = 8 ∨ d = 9) as Hcases by lia.
  repeat (destruct Hcases as [->|Hcases]; [reflexivity|]). by subst.
Qed.

Lemma two_digits_single_line (n : Z) : single_line (two_digits n).
Proof.
  unfold single_line, two_digits. cbn [str_exists].
  pose proof (Z.mod_pos_bound (n / 10) 10 ltac:(lia)).
  pose proof (Z.mod_pos_bound n 10 ltac:(lia)).
  rewrite !digit_char_single_line; [done|lia..].
Qed.

Lemma str_datetime_single_line (dt : datetime) : single_line (str_datetime dt).
Proof.
  unfold str_datetime, four_digits.
  repeat (apply single_line_app; split); try apply two_digits_single_line; done.
Qed.

Lemma row_lines (ev : event) :
  single_line_event ev → count_char newline (writerow (row_of ev)) = 1%nat.
Proof.
  intros [Hp Ht]. apply writerow_lines.
  destruct ev; cbn [row_of event_player event_text] in *;
    repeat constructor; try done; apply str_datetime_single_line.
Qed.

End CsvLines.

(** X18. The text written to a CSV file for events whose texts are of
    one physical line has one line for the header and one line for each
    event of the type of the file. *)
Theorem csv_one_line_per_event (entry_type : event_type) (event_stream : list event) :
  Forall single_line_event event_stream →
  count_char newline (csv_text entry_type event_stream)
  = S (length (filter (fun r => type_of r = entry_type) event_stream)).
Proof.
  intros Hs. unfold csv_text. rewrite count_char_app.
  assert (count_char newline (writerow (fields_of entry_type)) = 1%nat) as ->
    by (by destruct entry_type).
  cbn [Nat.add]. f_equal.
  induction Hs as [|ev es Hev Hes IH]; [done|].
  rewrite filter_cons. destruct (decide (type_of ev = entry_type)); [|done].
  cbn [fmap list_fmap concat_str length].
  rewrite count_char_app, row_lines by done.
  cbn [Nat.add]. f_equal. exact IH.
Qed.

Lemma csv_one_line_per_event_witness :
  count_char newline (csv_text TPlayerMessage two_days_events)
  = S (length (filter (fun r => type_of r = TPlayerMessage) two_days_events)).
Proof.
  apply (csv_one_line_per_event TPlayerMessage two_days_events).
  repeat constructor.
Defined.

(** X19. One log file that cannot be processed ends the run with an
    exception: a name with a date that is no calendar date, a file that
    cannot be read, or an entry whose time is no time of day. Nothing
    recovers from it. *)
Theorem failing_file_ends_run (w : world) (fs : gmap string node)
    (names : list string) (n : string) (e : exn) :
  os_listdir w (LOG_DIRECTORY w) = Ok names →
  n ∈ names → is_Some (fullmatch LOG_FILENAME_FORMAT n) →
  read_events w n = Raise e →
  ∃ e', (main w fs).1 = Raise e'.
Proof.
  intros Hl Hn Hm He.
  destruct (main w fs) as [[es|e'] fs'] eqn:E; [exfalso|by exists e'].
  unfold main in E. rewrite Hl in E.
  apply process_ok in E as (evs & Hall & _).
  pose proof (sorted_log_files_elem names n Hn Hm) as Hin.
  apply list_elem_of_lookup in Hin as [i Hi].
  destruct (Forall2_lookup_l _ _ _ _ _ Hall Hi) as (ev & _ & Hev).
  congruence.
Qed.

Lemma failing_file_ends_run_witness : ∃ e', (main bad_date_world ∅).1 = Raise e'.
Proof.
  apply (failing_file_ends_run bad_date_world ∅
           ["2024-01-01-1.log.gz"; "2024-02-30-1.log.gz"]
           "2024-02-30-1.log.gz" ValueError).
  - vm_compute. reflexivity.
  - apply (bool_decide_unpack _). vm_compute. exact I.
  - eexists. vm_compute. reflexivity.
  - vm_compute. reflexivity.
Defined.
